(** * extractZip (src/util.js): a shallow embedding and its properties

    The development embeds [extractZip] of [src/util.js] together with the
    [entry] listener it registers on the archive reader.  The function is
    callback driven: it calls into the file system, into the archive reader
    ([yauzl]) and into the caller's [onEntry] function, and those call back.
    The embedding is a state-passing program over

    - a [world]: the answers of the platform to the calls the function makes
      (file-system queries, the outcome of opening the archive, and for every
      entry the outcome of each asynchronous operation started for it), and
    - a [state]: the promise returned to the caller, the running index
      [idx], the reader's [isOpen] flag and [end] listener, and the trace of
      the calls made and events delivered, in the order they happen.

    What the platform does is modelled from its documentation:

    - [path.join] and [path.dirname] are the POSIX versions of Node's [path]
      module;
    - the reader is opened with [lazyEntries: true] and the default
      [autoClose]: it delivers one entry per [readEntry()] call, in the
      order of the central directory, and after the last one it closes
      itself and emits [end]; [entryCount] is the number of entries;
    - every asynchronous operation started for an entry has one outcome,
      chosen by the world; what a stream may still emit after an [error]
      (a [close], for one) is left out, and so are errors the reader itself
      may emit between entries;
    - the external attributes and [versionMadeBy] of an entry are integers;
      the 32-bit operators of the listener are written out on [Z];
    - [Buffer.toString('utf8')] is a function of the world. *)

From Stdlib Require Import ZArith String Ascii List Lia Bool DecimalString.
From stdpp Require Import base gmap strings list.

Open Scope Z_scope.

(** ** JavaScript values *)

(** What can be thrown, or passed as the [err] argument of a callback. *)
Inductive jserror :=
| TypeError (msg : string)
| Error (msg : string).

Definition message (e : jserror) : string :=
  match e with TypeError m | Error m => m end.

(** [String(err)] for an error object: its name, then its message if any. *)
Definition error_toString (e : jserror) : string :=
  let name := match e with TypeError _ => "TypeError" | Error _ => "Error" end in
  if String.eqb (message e) "" then name else (name +:+ ": " +:+ message e).

(** A function taking [(name, idx, total)]: it returns ([None]) or throws. *)
Definition callback := string -> Z -> Z -> option jserror.

#[warnings="-register-all"]
Inductive jsval :=
| JUndefined
| JNull
| JBoolean (b : bool)
| JNumber (n : Z)
| JString (s : string)
| JFunction (f : callback)
| JObject (props : gmap string jsval).

(** [typeof v] *)
Definition typeof (v : jsval) : string :=
  match v with
  | JUndefined => "undefined"
  | JNull => "object"
  | JBoolean _ => "boolean"
  | JNumber _ => "number"
  | JString _ => "string"
  | JFunction _ => "function"
  | JObject _ => "object"
  end.

(** [!!v] *)
Definition truthy (v : jsval) : bool :=
  match v with
  | JUndefined | JNull => false
  | JBoolean b => b
  | JNumber n => negb (n =? 0)
  | JString s => negb (String.eqb s "")
  | JFunction _ | JObject _ => true
  end.

(** [v.k] for a value that passed the object check. *)
Definition get_prop (v : jsval) (k : string) : jsval :=
  match v with
  | JObject props => default JUndefined (props !! k)
  | _ => JUndefined
  end.

(** The characters of a value known to be a string. *)
Definition string_of (v : jsval) : string :=
  match v with JString s => s | _ => "" end.

(** 32-bit integer operators: the operands go through [ToInt32] or
    [ToUint32] first. *)
Definition to_uint32 (x : Z) : Z := x mod 2 ^ 32.

Definition to_int32 (x : Z) : Z :=
  let u := to_uint32 x in if u <? 2 ^ 31 then u else u - 2 ^ 32.

(** [a >>> n] *)
Definition js_ushr (a n : Z) : Z := Z.shiftr (to_uint32 a) (n mod 32).

(** [a >> n] *)
Definition js_shr (a n : Z) : Z := Z.shiftr (to_int32 a) (n mod 32).

(** [a & b] *)
Definition js_and (a b : Z) : Z := to_int32 (Z.land (to_int32 a) (to_int32 b)).

(** [fs.constants] on POSIX platforms. *)
Definition S_IFMT : Z := 61440.   (* 0o170000 *)
Definition S_IFDIR : Z := 16384.  (* 0o040000 *)
Definition S_IFLNK : Z := 40960.  (* 0o120000 *)

(** ** Node's [path] module, POSIX flavour *)

Module Path.

Definition slash : ascii := "/"%char.

Definition is_slash (c : ascii) : bool := Ascii.eqb c slash.

(** The pieces of a path between separators: ["a//b"] gives
    [["a"; ""; "b"]]. *)
Fixpoint segments (p : string) : list string :=
  match p with
  | EmptyString => [EmptyString]
  | String c r =>
      if is_slash c then EmptyString :: segments r
      else match segments r with
           | h :: t => String c h :: t
           | [] => [String c EmptyString]
           end
  end.

Definition isAbsolute (p : string) : bool :=
  match p with String c _ => is_slash c | EmptyString => false end.

Fixpoint trailingSeparator (p : string) : bool :=
  match p with
  | EmptyString => false
  | String c EmptyString => is_slash c
  | String _ r => trailingSeparator r
  end.

(** One step of [normalizeString]: [res] holds the segments kept so far,
    the last one first. *)
Definition normalizeStep (allowAboveRoot : bool) (res : list string) (seg : string)
  : list string :=
  if String.eqb seg "" || String.eqb seg "." then res
  else if String.eqb seg ".." then
    match res with
    | last :: res' =>
        if String.eqb last ".."
        then (if allowAboveRoot then ".." :: res else res)
        else res'
    | [] => if allowAboveRoot then [".."] else []
    end
  else seg :: res.

Definition normalizeStack (allowAboveRoot : bool) (res segs : list string) : list string :=
  fold_left (normalizeStep allowAboveRoot) segs res.

(** [normalizeString(path, allowAboveRoot)], as a list of segments. *)
Definition normalizeString (p : string) (allowAboveRoot : bool) : list string :=
  rev (normalizeStack allowAboveRoot [] (segments p)).

(** [path.normalize(p)] *)
Definition normalize (p : string) : string :=
  if String.eqb p "" then "."
  else
    let abs := isAbsolute p in
    let body := String.concat "/" (normalizeString p (negb abs)) in
    let body := if String.eqb body "" && negb abs then "." else body in
    let body := if negb (String.eqb body "") && trailingSeparator p
                then body +:+ "/" else body in
    if abs then "/" +:+ body else body.

(** [path.join(a, b)]: the arguments that are not empty, separated by a
    slash, then normalized. *)
Definition join (a b : string) : string :=
  if String.eqb a "" then (if String.eqb b "" then "." else normalize b)
  else if String.eqb b "" then normalize a
  else normalize (a +:+ "/" +:+ b).

(** The scan of [path.dirname], from the last character down to the
    second: [rest] is the path without its first character, reversed.
    The answer is how many characters of the path follow the first one in
    the result. *)
Fixpoint dirname_scan (rest : list ascii) (matchedSlash : bool) : option nat :=
  match rest with
  | [] => None
  | c :: rest' =>
      if is_slash c
      then (if matchedSlash then dirname_scan rest' true else Some (List.length rest'))
      else dirname_scan rest' false
  end.

(** [path.dirname(p)] *)
Definition dirname (p : string) : string :=
  match p with
  | EmptyString => "."
  | String c0 r =>
      let hasRoot := is_slash c0 in
      match dirname_scan (rev (list_ascii_of_string r)) true with
      | None => if hasRoot then "/" else "."
      | Some k =>
          if hasRoot && Nat.eqb k 0 then "//"
          else String c0 (String.substring 0 k r)
      end
  end.

(** Where a path leads: whether it starts at the root, and the segments
    left once [.], [..] and empty segments are worked out. *)
Definition resolve (p : string) : bool * list string :=
  (isAbsolute p, normalizeString p (negb (isAbsolute p))).

Fixpoint strip_prefix (pre l : list string) : option (list string) :=
  match pre, l with
  | [], _ => Some l
  | a :: pre', b :: l' => if String.eqb a b then strip_prefix pre' l' else None
  | _ :: _, [] => None
  end.

(** [inside root p]: [p] leads to [root] or below it. *)
Definition inside (root p : string) : bool :=
  Bool.eqb (fst (resolve root)) (fst (resolve p))
  && match strip_prefix (snd (resolve root)) (snd (resolve p)) with
     | Some rest => forallb (fun s => negb (String.eqb s "..")) rest
     | None => false
     end.




End Path.

(** ** The archive and the world *)

(** One central-directory record, as the reader hands it to the listener. *)
Record entry := {
  fileName : string;
  externalFileAttributes : Z;
  versionMadeBy : Z
}.

(** What a piped pair of streams ends in: the write stream closes after the
    last byte, or one of the two streams emits [error]. *)
Inductive pipe_result :=
| PipeClosed
| PipeWriteError (e : jserror)
| PipeReadError (e : jserror).

(** The outcome of each operation the listener starts for an entry. *)
Record entry_io := {
  mkdirp_err : option jserror;          (* the argument handed to mkdirp's callback *)
  openReadStream_err : option jserror;  (* the [err] of openReadStream's callback *)
  chunks : list (list Byte.byte);       (* the [data] events of the read stream *)
  read_err : option jserror;            (* [error] rather than [end], symlink branch *)
  symlinkSync_err : option jserror;     (* what fs.symlinkSync throws, if it does *)
  pipe_end : pipe_result                (* regular-file branch *)
}.

(** An opened archive: its records, each with its outcomes.  The reader
    takes [entryCount] from the central directory and delivers that many
    entries. *)
Record zipfile := {
  entries : list (entry * entry_io)
}.

Definition entryCount (z : zipfile) : Z := Z.of_nat (List.length (entries z)).

Record world := {
  existsSync : string -> bool;
  isFile : string -> bool;
  yauzl_open : string -> jserror + zipfile;
  utf8 : list Byte.byte -> string       (* Buffer.toString('utf8') *)
}.

(** ** Traces and state *)

Inductive event :=
| FsExistsSync (p : string)
| FsIsFile (p : string)
| Log (file dest : string)
| YauzlOpen (file : string) (lazyEntries : bool)
| ZipReadEntry                               (* zipfile.readEntry() *)
| ZipEntry (name : string)                   (* the reader emits [entry] *)
| ZipEnd                                     (* the reader emits [end] *)
| ZipClose                                   (* zipfile.close() *)
| ZipRemoveEndListener                       (* zipfile.removeListener('end', resolve) *)
| OnEntry (name : string) (idx total : Z)    (* params.onEntry(name, idx, total) *)
| FsMkdirp (p : string)                      (* fs.mkdirp(p, cb) *)
| FsMkdirpDone (p : string) (err : option jserror)   (* cb runs *)
| ZipOpenReadStream (name : string)
| ReadStreamEnd (name : string)
| ReadStreamError (name : string) (e : jserror)
| FsSymlinkSync (target p : string)
| FsCreateWriteStream (p : string) (mode : Z)
| StreamPipe (name p : string)               (* readStream.pipe(writeStream) *)
| WriteStreamClose (p : string)
| WriteStreamError (p : string) (e : jserror)
| Resolve                                    (* resolve() *)
| Reject (e : jserror)                       (* reject(e) *)
| Uncaught (e : jserror).                    (* an exception nobody catches *)

Inductive settled :=
| Fulfilled
| Rejected (e : jserror).

Record state := mkState {
  trace : list event;
  promise : option settled;   (* [None]: pending *)
  idx : Z;
  isOpen : bool;              (* zipfile.isOpen *)
  endListener : bool          (* [resolve] is registered for [end] *)
}.

Definition initial : state :=
  {| trace := []; promise := None; idx := 0; isOpen := false; endListener := false |}.

(** ** A state monad for the calls *)

Definition M (A : Type) : Type := state -> A * state.

Definition ret {A} (a : A) : M A := fun s => (a, s).

Definition bind {A B} (m : M A) (k : A -> M B) : M B :=
  fun s => let (a, s') := m s in k a s'.

Declare Scope m_scope.
Delimit Scope m_scope with M.
Notation "x <- m ;; k" := (bind m (fun x => k))
  (at level 100, m at next level, right associativity) : m_scope.
Notation "m ;; k" := (bind m (fun _ => k))
  (at level 100, right associativity) : m_scope.
Open Scope m_scope.

Definition emit (ev : event) : M unit :=
  fun s => (tt, mkState (trace s ++ [ev]) (promise s) (idx s) (isOpen s) (endListener s)).

(** A promise settles once; later calls change nothing. *)
Definition settle (o : settled) : M unit :=
  fun s => (tt, mkState (trace s)
                        (match promise s with None => Some o | Some o' => Some o' end)
                        (idx s) (isOpen s) (endListener s)).

Definition set_idx (i : Z) : M unit :=
  fun s => (tt, mkState (trace s) (promise s) i (isOpen s) (endListener s)).

Definition get_idx : M Z := fun s => (idx s, s).

Definition set_isOpen (b : bool) : M unit :=
  fun s => (tt, mkState (trace s) (promise s) (idx s) b (endListener s)).

Definition set_endListener (b : bool) : M unit :=
  fun s => (tt, mkState (trace s) (promise s) (idx s) (isOpen s) b).

Definition get_endListener : M bool := fun s => (endListener s, s).

(** [throw e] in the body of the async function: its promise rejects. *)
Definition throw (e : jserror) : M unit := settle (Rejected e).

Definition resolve : M unit := emit Resolve ;; settle Fulfilled.

Definition reject (e : jserror) : M unit := emit (Reject e) ;; settle (Rejected e).

Definition uncaught (e : jserror) : M unit := emit (Uncaught e).

(** ** Calls into the platform *)

Definition fs_existsSync (w : world) (p : string) : M bool :=
  emit (FsExistsSync p) ;; ret (existsSync w p).

Definition fs_isFile (w : world) (p : string) : M bool :=
  emit (FsIsFile p) ;; ret (isFile w p).

(** [fs.mkdirp(p, cb)]: the result is what [cb] receives. *)
Definition fs_mkdirp (p : string) (io : entry_io) : M (option jserror) :=
  emit (FsMkdirp p) ;; emit (FsMkdirpDone p (mkdirp_err io)) ;; ret (mkdirp_err io).

Definition zipfile_openReadStream (ent : entry) (io : entry_io) : M (option jserror) :=
  emit (ZipOpenReadStream (fileName ent)) ;; ret (openReadStream_err io).

(** [fs.symlinkSync(target, p)]: the result is what it throws. *)
Definition fs_symlinkSync (target p : string) (io : entry_io) : M (option jserror) :=
  emit (FsSymlinkSync target p) ;; ret (symlinkSync_err io).

(** [zipfile.close()]: idempotent. *)
Definition zipfile_close : M unit := emit ZipClose ;; set_isOpen false.

(** What the loop does after a listener returns. *)
Inductive control := Advance | Halt.

(** [zipfile.readEntry()]: the call is recorded here, the reader's answer
    is [readEntry] below. *)
Definition zipfile_readEntry : M control := emit ZipReadEntry ;; ret Advance.

(** ** extractZip *)

(** The [abort] closure. *)
Definition abort (err : jserror) : M control :=
  emit ZipRemoveEndListener ;; set_endListener false ;;
  zipfile_close ;;
  reject err ;;
  ret Halt.

(** Lines 132 to 146: the mode and the two flags. *)
Definition entry_mode (ent : entry) : Z :=
  js_and (js_ushr (externalFileAttributes ent) 16) 65535.

Definition entry_symlink (ent : entry) : bool :=
  js_and (entry_mode ent) S_IFMT =? S_IFLNK.

Definition entry_isDir (ent : entry) : bool :=
  let isDir := js_and (entry_mode ent) S_IFMT =? S_IFDIR in
  let madeBy := js_shr (versionMadeBy ent) 8 in
  if negb isDir
  then (madeBy =? 0) && (externalFileAttributes ent =? 16)
  else isDir.

(** The [mode] handed to the write stream. *)
Definition file_mode (ent : entry) : Z :=
  let mode := entry_mode ent in
  if mode =? 0 then 420 (* 0o644 *) else mode.

Inductive EntryKind := Symlink | Directory | RegularFile.

(** The branch taken at lines 148, 165 and 167. *)
Definition classify (ent : entry) : EntryKind :=
  if entry_symlink ent then Symlink
  else if entry_isDir ent then Directory
  else RegularFile.

(** [try { params.onEntry(name, idx, total) } catch (e) { ... }]: the
    result is what was caught. *)
Definition call_onEntry (params : jsval) (name : string) (i total : Z)
  : M (option jserror) :=
  if String.eqb (typeof (get_prop params "onEntry")) "function" then
    match get_prop params "onEntry" with
    | JFunction f => emit (OnEntry name i total) ;; ret (f name i total)
    | _ => ret None
    end
  else ret None.

(** The listener registered for [entry]. *)
Definition entry_listener (w : world) (params : jsval) (dest : string) (total : Z)
    (ent : entry) (io : entry_io) : M control :=
  i <- get_idx ;; set_idx (i + 1) ;;
  i <- get_idx ;;
  caught <- call_onEntry params (fileName ent) i total ;;
  match caught with
  | Some e => reject e ;; ret Halt
  | None =>
    let fullPath := Path.join dest (fileName ent) in
    match classify ent with
    | Symlink =>
        _ <- fs_mkdirp (Path.dirname fullPath) io ;;
        err <- zipfile_openReadStream ent io ;;
        match err with
        | Some err => abort err
        | None =>
            match read_err io with
            | Some err => emit (ReadStreamError (fileName ent) err) ;; abort err
            | None =>
                emit (ReadStreamEnd (fileName ent)) ;;
                let str := utf8 w (concat (chunks io)) in
                thrown <- fs_symlinkSync str fullPath io ;;
                match thrown with
                | Some e => uncaught e ;; ret Halt
                | None => zipfile_readEntry
                end
            end
        end
    | Directory =>
        _ <- fs_mkdirp fullPath io ;;
        zipfile_readEntry
    | RegularFile =>
        _ <- fs_mkdirp (Path.dirname fullPath) io ;;
        err <- zipfile_openReadStream ent io ;;
        match err with
        | Some err => abort err
        | None =>
            emit (FsCreateWriteStream fullPath (file_mode ent)) ;;
            emit (StreamPipe (fileName ent) fullPath) ;;
            match pipe_end io with
            | PipeClosed => emit (WriteStreamClose fullPath) ;; zipfile_readEntry
            | PipeWriteError e => emit (WriteStreamError fullPath e) ;; abort e
            | PipeReadError e =>
                (* the read stream has no [error] listener *)
                emit (ReadStreamError (fileName ent) e) ;; uncaught e ;; ret Halt
            end
        end
    end
  end.

(** The reader's [end]: [resolve] was registered with [once]. *)
Definition emit_end : M unit :=
  emit ZipEnd ;;
  l <- get_endListener ;;
  if l then set_endListener false ;; resolve else ret tt.

(** The reader's answer to [readEntry()]: the next entry goes to the
    listener; after the last one the reader closes itself and emits [end]. *)
Fixpoint readEntry (w : world) (params : jsval) (dest : string) (total : Z)
    (es : list (entry * entry_io)) : M unit :=
  match es with
  | [] => zipfile_close ;; emit_end
  | (ent, io) :: es' =>
      emit (ZipEntry (fileName ent)) ;;
      c <- entry_listener w params dest total ent io ;;
      match c with
      | Advance => readEntry w params dest total es'
      | Halt => ret tt
      end
  end.

(** The callback of [yauzl.open]. *)
Definition on_open (w : world) (params : jsval) (dest : string)
    (r : jserror + zipfile) : M unit :=
  match r with
  | inl err =>
      let m := if String.eqb (message err) "" then error_toString err else message err in
      reject (Error ("Invalid zip file: " +:+ m))
  | inr z =>
      set_isOpen true ;;
      set_idx 0 ;;
      let total := entryCount z in
      set_endListener true ;;
      _ <- zipfile_readEntry ;;
      readEntry w params dest total (entries z)
  end.

Definition extractZip (w : world) (params : jsval) : M unit :=
  if negb (truthy params) || negb (String.eqb (typeof params) "object") then
    throw (TypeError "Expected params to be an object")
  else
    let dest := get_prop params "dest" in
    let file := get_prop params "file" in
    if negb (truthy dest) || negb (String.eqb (typeof dest) "string") then
      throw (TypeError "Expected destination directory to be a non-empty string")
    else if negb (truthy file) || negb (String.eqb (typeof file) "string") then
      throw (TypeError "Expected zip file to be a non-empty string")
    else
      let dest := string_of dest in
      let file := string_of file in
      ex <- fs_existsSync w file ;;
      if negb ex then throw (Error "The specified zip file does not exist")
      else
        f <- fs_isFile w file ;;
        if negb f then throw (Error "The specified zip file is not a file")
        else
          emit (Log file dest) ;;
          emit (YauzlOpen file true) ;;
          on_open w params dest (yauzl_open w file).

(** The state a call ends in. *)
Definition run (w : world) (params : jsval) : state := snd (extractZip w params initial).

(** ** Sample inputs *)

Definition ok_io (content : list (list Byte.byte)) : entry_io :=
  {| mkdirp_err := None; openReadStream_err := None; chunks := content;
     read_err := None; symlinkSync_err := None; pipe_end := PipeClosed |}.

(** [a.txt], mode 0o100644, packed on Unix. *)
Definition sample_file : entry :=
  {| fileName := "a.txt"; externalFileAttributes := 2175008768; versionMadeBy := 798 |}.

(** [dir/], mode 0o040755 and the DOS directory bit. *)
Definition sample_dir : entry :=
  {| fileName := "dir/"; externalFileAttributes := 1106051088; versionMadeBy := 798 |}.

(** [dir/link], mode 0o120777; its content is the link target. *)
Definition sample_link : entry :=
  {| fileName := "dir/link"; externalFileAttributes := 2717843456; versionMadeBy := 798 |}.

(** [b.txt], packed on MS-DOS with the archive attribute only: mode 0. *)
Definition sample_dos_file : entry :=
  {| fileName := "b.txt"; externalFileAttributes := 32; versionMadeBy := 20 |}.

Definition sample_zip : zipfile :=
  {| entries := [ (sample_file, ok_io [list_byte_of_string "hello"]);
                  (sample_dir, ok_io []);
                  (sample_link, ok_io [list_byte_of_string "../"; list_byte_of_string "a.txt"]) ] |}.

(** A world with one archive, [/tmp/a.zip], and a directory [/tmp]. *)
Definition sample_world (z : zipfile) : world :=
  {| existsSync := fun p => String.eqb p "/tmp/a.zip" || String.eqb p "/tmp";
     isFile := fun p => String.eqb p "/tmp/a.zip";
     yauzl_open := fun p => if String.eqb p "/tmp/a.zip" then inr z
                            else inl (Error "not a zip file");
     utf8 := string_of_list_byte |}.

Definition sample_params (onEntry : jsval) : jsval :=
  JObject (<["dest" := JString "/out"]>
           (<["file" := JString "/tmp/a.zip"]>
            (<["onEntry" := onEntry]> ∅))).

Definition quiet : callback := fun _ _ _ => None.

(** A progress callback that throws on the second entry. *)
Definition throws_on_second : callback :=
  fun _ i _ => if i =? 2 then Some (Error "stop") else None.

Definition EACCES : jserror := Error "EACCES: permission denied, mkdir /out/dir/".

(** An archive whose first entry is a directory that cannot be created. *)
Definition unwritable_dir_zip : zipfile :=
  {| entries :=
       [ (sample_dir,
          {| mkdirp_err := Some EACCES; openReadStream_err := None; chunks := [];
             read_err := None; symlinkSync_err := None; pipe_end := PipeClosed |});
         (sample_file, ok_io [list_byte_of_string "hello"]) ] |}.

Definition Z_DATA_ERROR : jserror := Error "invalid stored block lengths".

(** An archive whose only entry is a file whose compressed data is corrupt. *)
Definition corrupt_file_zip : zipfile :=
  {| entries :=
       [ (sample_file,
          {| mkdirp_err := None; openReadStream_err := None; chunks := [];
             read_err := None; symlinkSync_err := None;
             pipe_end := PipeReadError Z_DATA_ERROR |}) ] |}.


(** ** Observers of a trace *)

(** The path an event starts to create something at. *)
Definition mutation_path (ev : event) : option string :=
  match ev with
  | FsMkdirp p => Some p
  | FsSymlinkSync _ p => Some p
  | FsCreateWriteStream p _ => Some p
  | _ => None
  end.


(** The arguments of the calls of the progress callback, in order. *)
Definition onEntry_calls (tr : list event) : list (string * Z * Z) :=
  omap (fun ev => match ev with OnEntry n i t => Some (n, i, t) | _ => None end) tr.

(** The most recent call of the progress callback. *)
Definition last_call (tr : list event) : option (string * Z * Z) :=
  fold_left (fun acc ev => match ev with OnEntry n i t => Some (n, i, t) | _ => acc end)
            tr None.

(** The most recent event. *)
Definition last_event (tr : list event) : option event :=
  fold_left (fun _ ev => Some ev) tr None.

(** [zipfile.close()] calls. *)
Definition close_count (tr : list event) : nat :=
  List.length (List.filter (fun ev => match ev with ZipClose => true | _ => false end) tr).

(** What the caller's function answers when the listener calls it; [None]
    too when no function was supplied. *)
Definition onEntry_result (params : jsval) (name : string) (i total : Z) : option jserror :=
  match get_prop params "onEntry" with
  | JFunction f => f name i total
  | _ => None
  end.

(** The progress calls for the entries [names], numbered from [i]. *)
Fixpoint progress_calls (names : list string) (i total : Z) : list (string * Z * Z) :=
  match names with
  | [] => []
  | n :: names' => (n, i, total) :: progress_calls names' (i + 1) total
  end.

(** The events one run of the listener adds to a trace. *)
Definition listener_events (w : world) (params : jsval) (dest : string) (total : Z)
    (ent : entry) (io : entry_io) (s : state) : list event :=
  drop (List.length (trace s)) (trace (snd (entry_listener w params dest total ent io s))).

(** The state of a call that failed a precondition: the promise is
    rejected, [tr] is all that happened, no archive was opened. *)
Definition failed_early (tr : list event) (e : jserror) : state :=
  {| trace := tr; promise := Some (Rejected e); idx := 0; isOpen := false;
     endListener := false |}.

Definition InvalidDestination : jserror :=
  TypeError "Expected destination directory to be a non-empty string".
Definition InvalidSource : jserror :=
  TypeError "Expected zip file to be a non-empty string".
Definition SourceNotFound : jserror :=
  Error "The specified zip file does not exist".
Definition SourceNotAFile : jserror :=
  Error "The specified zip file is not a file".

(** The call of the progress callback the listener makes, if one was
    supplied. *)
Definition onEntry_events (params : jsval) (name : string) (i total : Z) : list event :=
  match get_prop params "onEntry" with
  | JFunction _ => [OnEntry name i total]
  | _ => []
  end.

(** How many entries the reader has delivered. *)
Definition delivered (tr : list event) : nat :=
  fold_left (fun acc ev => match ev with ZipEntry _ => S acc | _ => acc end) tr 0%nat.

(** [P pre ev] holds of every event [ev] of a trace, [pre] being what
    came before it. *)
Definition each_event (P : list event -> event -> Prop) (tr : list event) : Prop :=
  forall pre ev post, tr = pre ++ ev :: post -> P pre ev.


(** The call gets past the precondition checks and the reader opens the
    archive [z]. *)
Definition opens (w : world) (params : jsval) (dest file : string) (z : zipfile) : Prop :=
  exists props,
    params = JObject props /\
    props !! "dest" = Some (JString dest) /\ dest <> "" /\
    props !! "file" = Some (JString file) /\ file <> "" /\
    existsSync w file = true /\ isFile w file = true /\
    yauzl_open w file = inr z.

(** The state in which the reader is first asked for an entry. *)
Definition opened (file dest : string) : state :=
  {| trace := [FsExistsSync file; FsIsFile file; Log file dest; YauzlOpen file true;
               ZipReadEntry];
     promise := None; idx := 0; isOpen := true; endListener := true |}.


(** Progress is reported first.  Of every event of a run: whatever is
    created is created after a call of the progress callback, and the most
    recent call is the one for the entry delivered last, whose path or
    parent is the place. *)
Definition after_its_call (dest : string) (total : Z)
    (pre : list event) (ev : event) : Prop :=
  forall p, mutation_path ev = Some p ->
    exists n i, last_call pre = Some (n, i, total) /\
      i = Z.of_nat (delivered pre) /\
      (p = Path.join dest n \/ p = Path.dirname (Path.join dest n)).

(** ** version.format, version.eq, version.lt, version.rcompare

    Strings are sequences of 8-bit characters and numbers are integers, as
    in the rest of the development; what [semver] answers is a parameter. *)

Module Version.

Definition is_dot (c : ascii) : bool := Ascii.eqb c "."%char.

Definition is_dash (c : ascii) : bool := Ascii.eqb c "-"%char.

(** The characters the [.] of a regular expression does not match. *)
Definition is_line_terminator (c : ascii) : bool :=
  Ascii.eqb c "010"%char || Ascii.eqb c "013"%char.

Fixpoint has_line_terminator (s : string) : bool :=
  match s with
  | EmptyString => false
  | String c r => is_line_terminator c || has_line_terminator r
  end.

Fixpoint has_dash (s : string) : bool :=
  match s with
  | EmptyString => false
  | String c r => is_dash c || has_dash r
  end.

Fixpoint has_dot (s : string) : bool :=
  match s with
  | EmptyString => false
  | String c r => is_dot c || has_dot r
  end.

(** [s.replace(re, '')] for the pattern of [format]: an optional group, a
    dash followed by any characters, anchored at the end.  The match is at
    the first dash that has only characters matched by [.] after it, or
    else it is empty, at the end. *)
Fixpoint chop_dash (s : string) : string :=
  match s with
  | EmptyString => EmptyString
  | String c r =>
      if is_dash c && negb (has_line_terminator r) then EmptyString
      else String c (chop_dash r)
  end.

(** [s.split('.')] *)
Fixpoint split (s : string) : list string :=
  match s with
  | EmptyString => [EmptyString]
  | String c r =>
      if is_dot c then EmptyString :: split r
      else match split r with
           | h :: t => String c h :: t
           | [] => [String c EmptyString]
           end
  end.

(** [while (ver.length < min) ver.push('0')] *)
Definition push_zeros (min : Z) (ver : list string) : list string :=
  ver ++ replicate (Z.to_nat (min - Z.of_nat (List.length ver))) "0".

(** [ver.slice(0, max)]: a negative [max] counts from the end. *)
Definition slice0 (max : Z) (ver : list string) : list string :=
  let len := Z.of_nat (List.length ver) in
  let final := if max <? 0 then Z.max (len + max) 0 else Z.min max len in
  take (Z.to_nat final) ver.

(** [String(n)] for an integer below 10^21 in absolute value. *)
Definition number_toString (n : Z) : string :=
  NilZero.string_of_int (Z.to_int n).

(** ['' + v]: what an object, a function or a large number gives is up to
    [other]. *)
Definition to_string (other : jsval -> string) (v : jsval) : string :=
  match v with
  | JUndefined => "undefined"
  | JNull => "null"
  | JBoolean b => if b then "true" else "false"
  | JNumber n => if Z.abs n <? 10 ^ 21 then number_toString n else other v
  | JString s => s
  | JFunction _ | JObject _ => other v
  end.

(** [version.format(ver, min, max, chopDash)]; [None] for an argument that
    is [undefined]. *)
Definition format (other : jsval -> string) (ver : jsval) (min max : option Z)
    (chopDash : jsval) : string :=
  let ver := to_string other (if truthy ver then ver else JNumber 0) in
  let ver := if truthy chopDash then chop_dash ver else ver in
  let ver := split ver in
  let ver := match min with Some m => push_zeros m ver | None => ver end in
  let ver := match max with Some m => slice0 m ver | None => ver end in
  String.concat "." ver.

(** The two functions of the [semver] package the helpers call; each
    returns, or throws on a version it does not accept. *)
Record semver := {
  semver_eq : string -> string -> jserror + bool;
  semver_lt : string -> string -> jserror + bool
}.

Definition eq (sv : semver) (other : jsval -> string) (v1 v2 : jsval) : jserror + bool :=
  semver_eq sv (format other v1 (Some 3) (Some 3) JUndefined)
               (format other v2 (Some 3) (Some 3) JUndefined).

Definition lt (sv : semver) (other : jsval -> string) (v1 v2 : jsval) : jserror + bool :=
  semver_lt sv (format other v1 (Some 3) (Some 3) JUndefined)
               (format other v2 (Some 3) (Some 3) JUndefined).

(** [version.eq(v1, v2) ? 0 : version.lt(v1, v2) ? 1 : -1] *)
Definition rcompare (sv : semver) (other : jsval -> string) (v1 v2 : jsval)
  : jserror + Z :=
  match eq sv other v1 v2 with
  | inl e => inl e
  | inr true => inr 0
  | inr false =>
      match lt sv other v1 v2 with
      | inl e => inl e
      | inr true => inr 1
      | inr false => inr (-1)
      end
  end.

End Version.

(** ** buildRequestParams and fetchJSON

    The request parameters are an object with string keys; the network
    options of [options.js], the file system, [request], [JSON.parse] and
    [STATUS_CODES] are parameters. *)

Module Request.

(** What a property of the request parameters can hold: a value, or the
    [Buffer] that [fs.readFileSync] returns. *)
Inductive pval :=
| PVal (v : jsval)
| PBuffer (bytes : list Byte.byte).

Definition ptruthy (v : pval) : bool :=
  match v with
  | PVal v => truthy v
  | PBuffer _ => true
  end.

Definition is_undefined (v : pval) : bool :=
  match v with
  | PVal JUndefined => true
  | _ => false
  end.

(** [params.k] *)
Definition prop (params : gmap string pval) (k : string) : pval :=
  default (PVal JUndefined) (params !! k).

(** [options.network] *)
Record network := {
  agentOptions : jsval;
  caFile : jsval;
  certFile : jsval;
  httpsProxy : jsval;
  httpProxy : jsval;
  keyFile : jsval;
  passphrase : jsval;
  strictSSL : jsval
}.

(** What a call of [request] ends in: the arguments of its callback. *)
Inductive outcome :=
| RequestError (err : jserror)
| NoResponse
| Response (statusCode : Z) (body : string).

(** The functions of the platform the two helpers call. *)
Record platform := {
  is_file : jsval -> bool;                           (* isFile of appcd-fs *)
  readFileSync : jsval -> jserror + list Byte.byte;  (* returns, or throws *)
  toString : jsval -> string;        (* of an object, a function, a large number *)
  buffer_toString : list Byte.byte -> string;
  request : gmap string pval -> outcome;
  JSON_parse : string -> option jsval;               (* [None]: it throws *)
  STATUS_CODES : Z -> option string
}.

(** [a || b] *)
Definition js_or (a b : jsval) : jsval := if truthy a then a else b.

(** [String(v)] *)
Definition to_str (pf : platform) (v : pval) : string :=
  match v with
  | PVal v => Version.to_string (toString pf) v
  | PBuffer b => buffer_toString pf b
  end.

(** What [Object.assign(target, source)] throws for a [target] that is
    falsy: [undefined] and [null] are no objects; the other values are
    boxed, and of the boxes only the one of the empty string has a property
    that cannot be written, [length]. *)
Definition assign_throws (target : pval) (source : jsval) : option jserror :=
  match target with
  | PVal JUndefined | PVal JNull =>
      Some (TypeError "Cannot convert undefined or null to object")
  | PVal (JString _) =>
      match source with
      | JObject props =>
          match props !! "length" with
          | Some _ => Some (TypeError "Cannot assign to read only property 'length' of object '[object String]'")
          | None => None
          end
      | _ => None
      end
  | _ => None
  end.

(** Lines 37 to 39.  The properties copied land on the box, not in
    [params]. *)
Definition merge_agentOptions (net : network) (params : gmap string pval)
  : option jserror :=
  if negb (ptruthy (prop params "agentOptions")) && truthy (agentOptions net)
  then assign_throws (prop params "agentOptions") (agentOptions net)
  else None.

(** Lines 41 to 43, 45 to 47 and 57 to 59: the same statement for [ca],
    [cert] and [key].  The result is what was thrown, if anything, and the
    object as it is then. *)
Definition read_into (pf : platform) (k : string) (file : jsval)
    (params : gmap string pval) : option jserror * gmap string pval :=
  if negb (ptruthy (prop params k)) && truthy file && is_file pf file then
    match readFileSync pf file with
    | inl e => (Some e, params)
    | inr bytes => (None, <[k := PBuffer bytes]> params)
    end
  else (None, params).

(** [/^https/.test(url)] *)
Definition is_https (pf : platform) (url : pval) : bool :=
  String.prefix "https" (to_str pf url).

(** Lines 49 to 55. *)
Definition set_proxy (pf : platform) (net : network) (params : gmap string pval)
  : gmap string pval :=
  if negb (ptruthy (prop params "proxy")) && ptruthy (prop params "url")
     && truthy (js_or (httpsProxy net) (httpProxy net))
  then
    if is_https pf (prop params "url")
    then <["proxy" := PVal (js_or (httpsProxy net) (httpProxy net))]> params
    else <["proxy" := PVal (js_or (httpProxy net) (httpsProxy net))]> params
  else params.

(** Lines 61 to 63. *)
Definition set_passphrase (net : network) (params : gmap string pval)
  : gmap string pval :=
  if negb (ptruthy (prop params "passphrase")) && truthy (passphrase net)
  then <["passphrase" := PVal (passphrase net)]> params
  else params.

(** Lines 65 to 67. *)
Definition set_strictSSL (net : network) (params : gmap string pval)
  : gmap string pval :=
  if is_undefined (prop params "strictSSL")
     && negb (is_undefined (PVal (strictSSL net)))
  then <["strictSSL" := PVal (strictSSL net)]> params
  else params.

(** [buildRequestParams(params)]: what it throws, if anything, and
    [params] as the call leaves it; when nothing is thrown that object is
    the result. *)
Definition buildRequestParams (pf : platform) (net : network)
    (params : gmap string pval) : option jserror * gmap string pval :=
  match merge_agentOptions net params with
  | Some e => (Some e, params)
  | None =>
    match read_into pf "ca" (caFile net) params with
    | (Some e, params) => (Some e, params)
    | (None, params) =>
      match read_into pf "cert" (certFile net) params with
      | (Some e, params) => (Some e, params)
      | (None, params) =>
        let params := set_proxy pf net params in
        match read_into pf "key" (keyFile net) params with
        | (Some e, params) => (Some e, params)
        | (None, params) =>
            (None, set_strictSSL net (set_passphrase net params))
        end
      end
    end
  end.

Inductive fetched :=
| Resolved (v : jsval)
| Rejected (e : jserror).

Inductive fetch_event :=
| Logged (url : jsval)
| Requested (params : gmap string pval).

(** [fetchJSON(url)]: the calls made, and how the promise settles.  An
    exception thrown while the arguments of [request] are evaluated
    rejects the promise. *)
Definition fetchJSON (pf : platform) (net : network) (url : jsval)
  : list fetch_event * fetched :=
  let init := <["method" := PVal (JString "GET")]> (<["url" := PVal url]> ∅) in
  match buildRequestParams pf net init with
  | (Some e, _) => ([Logged url], Rejected e)
  | (None, params) =>
      ([Logged url; Requested params],
       match request pf params with
       | RequestError err => Rejected err
       | NoResponse => Rejected (Error "Request error: no response")
       | Response statusCode body =>
           if statusCode >=? 400 then
             Rejected (Error (to_str pf (PVal (JNumber statusCode)) +:+ " " +:+
                              match STATUS_CODES pf statusCode with
                              | Some text => text
                              | None => "undefined"
                              end))
           else
             match JSON_parse pf body with
             | Some v => Resolved v
             | None => Rejected (Error "Request error: malformed JSON response")
             end
       end)
  end.

End Request.

(** [buildRequestParams] leaves the key [k] of [p] alone when the caller
    set it, or when it is none of the keys the function writes. *)
Definition kept_key (p : gmap string Request.pval) (k : string) : Prop :=
  (In k ["ca"; "cert"; "proxy"; "key"; "passphrase"] ->
   Request.ptruthy (Request.prop p k) = true) /\
  (k = "strictSSL" -> Request.is_undefined (Request.prop p k) = false).

(** A [semver] that knows of no order but equality of the strings. *)
Definition sample_semver : Version.semver :=
  {| Version.semver_eq := fun a b => inr (String.eqb a b);
     Version.semver_lt := fun a b => inr false |}.

(** A platform with one file, [/etc/ca.pem], and a server that answers
    every request with an empty JSON object. *)
Definition sample_platform : Request.platform :=
  {| Request.is_file := fun f => match f with JString s => String.eqb s "/etc/ca.pem" | _ => false end;
     Request.readFileSync := fun f => inr (list_byte_of_string "PEM");
     Request.toString := fun _ => "[object Object]";
     Request.buffer_toString := string_of_list_byte;
     Request.request := fun _ => Request.Response 200 "{}";
     Request.JSON_parse := fun s => if String.eqb s "{}" then Some (JObject ∅) else None;
     Request.STATUS_CODES := fun c => if c =? 404 then Some "Not Found" else None |}.

Definition no_network : Request.network :=
  {| Request.agentOptions := JUndefined; Request.caFile := JUndefined;
     Request.certFile := JUndefined; Request.httpsProxy := JUndefined;
     Request.httpProxy := JUndefined; Request.keyFile := JUndefined;
     Request.passphrase := JUndefined; Request.strictSSL := JUndefined |}.

(** A network configuration with two proxies and a certificate authority. *)
Definition proxied_network : Request.network :=
  {| Request.agentOptions := JUndefined; Request.caFile := JString "/etc/ca.pem";
     Request.certFile := JUndefined; Request.httpsProxy := JString "https://proxy:8443";
     Request.httpProxy := JString "http://proxy:8080"; Request.keyFile := JUndefined;
     Request.passphrase := JString "secret"; Request.strictSSL := JBoolean false |}.

(** A network configuration that sets options for the agent. *)
Definition agent_network : Request.network :=
  {| Request.agentOptions := JObject (<["keepAlive" := JBoolean true]> ∅);
     Request.caFile := JUndefined;
     Request.certFile := JUndefined; Request.httpsProxy := JUndefined;
     Request.httpProxy := JUndefined; Request.keyFile := JUndefined;
     Request.passphrase := JUndefined; Request.strictSSL := JUndefined |}.

(** ** More observers of a run *)

(** An event without the error that [mkdirp] handed to its callback. *)
Definition forget_mkdirp_err (ev : event) : event :=
  match ev with
  | FsMkdirpDone p _ => FsMkdirpDone p None
  | _ => ev
  end.

(** The outcomes of an entry had [mkdirp] succeeded. *)
Definition clear_mkdirp (io : entry_io) : entry_io :=
  {| mkdirp_err := None; openReadStream_err := openReadStream_err io;
     chunks := chunks io; read_err := read_err io;
     symlinkSync_err := symlinkSync_err io; pipe_end := pipe_end io |}.

Definition clear_mkdirps (z : zipfile) : zipfile :=
  {| entries := map (fun e => (fst e, clear_mkdirp (snd e))) (entries z) |}.



(** A world whose archive the reader cannot open. *)
Definition broken_world : world :=
  {| existsSync := fun p => String.eqb p "/tmp/a.zip";
     isFile := fun p => String.eqb p "/tmp/a.zip";
     yauzl_open := fun _ => inl (Error "end of central directory record signature not found");
     utf8 := string_of_list_byte |}.


(** A state whose trace has lost the errors of [mkdirp]. *)
Definition forget_state (s : state) : state :=
  {| trace := map forget_mkdirp_err (trace s); promise := promise s; idx := idx s;
     isOpen := isOpen s; endListener := endListener s |}.

(** The same world, with a file system in which [mkdirp] never fails. *)
Definition clear_world (w : world) : world :=
  {| existsSync := existsSync w; isFile := isFile w;
     yauzl_open := fun p => match yauzl_open w p with
                            | inl e => inl e
                            | inr z => inr (clear_mkdirps z)
                            end;
     utf8 := utf8 w |}.

(** The outcomes after which the listener asks for the next entry: the
    stream of a link opens, ends and the link is made; the stream of a
    file opens and the write stream closes. *)
Definition entry_ok (ent : entry) (io : entry_io) : bool :=
  match classify ent with
  | Symlink =>
      match openReadStream_err io, read_err io, symlinkSync_err io with
      | None, None, None => true
      | _, _, _ => false
      end
  | Directory => true
  | RegularFile =>
      match openReadStream_err io, pipe_end io with
      | None, PipeClosed => true
      | _, _ => false
      end
  end.

(** Every entry of [es] goes well, the progress callback returning for
    each; the first of them is entry number [i + 1]. *)
Fixpoint all_ok (params : jsval) (total : Z) (es : list (entry * entry_io)) (i : Z)
  : bool :=
  match es with
  | [] => true
  | (ent, io) :: es' =>
      match onEntry_result params (fileName ent) (i + 1) total with
      | None => entry_ok ent io && all_ok params total es' (i + 1)
      | Some _ => false
      end
  end.

(** * Properties *)

(** ** A run, and the path functions, on examples *)

Example sample_run :
  run (sample_world sample_zip) (sample_params (JFunction quiet)) =
    {| trace :=
         [ FsExistsSync "/tmp/a.zip"; FsIsFile "/tmp/a.zip"; Log "/tmp/a.zip" "/out";
           YauzlOpen "/tmp/a.zip" true; ZipReadEntry;
           ZipEntry "a.txt"; OnEntry "a.txt" 1 3;
           FsMkdirp "/out"; FsMkdirpDone "/out" None; ZipOpenReadStream "a.txt";
           FsCreateWriteStream "/out/a.txt" 33188; StreamPipe "a.txt" "/out/a.txt";
           WriteStreamClose "/out/a.txt"; ZipReadEntry;
           ZipEntry "dir/"; OnEntry "dir/" 2 3;
           FsMkdirp "/out/dir/"; FsMkdirpDone "/out/dir/" None; ZipReadEntry;
           ZipEntry "dir/link"; OnEntry "dir/link" 3 3;
           FsMkdirp "/out/dir"; FsMkdirpDone "/out/dir" None; ZipOpenReadStream "dir/link";
           ReadStreamEnd "dir/link"; FsSymlinkSync "../a.txt" "/out/dir/link"; ZipReadEntry;
           ZipClose; ZipEnd; Resolve ];
       promise := Some Fulfilled; idx := 3; isOpen := false; endListener := false |}.
Proof. vm_compute. reflexivity. Qed.

Example sample_kinds :
  (classify sample_file, classify sample_dir, classify sample_link, classify sample_dos_file)
    = (RegularFile, Directory, Symlink, RegularFile).
Proof. reflexivity. Qed.

(** A directory packed on MS-DOS: no mode bits, external attributes 16. *)
Example dos_directory :
  classify {| fileName := "docs/"; externalFileAttributes := 16; versionMadeBy := 20 |}
    = Directory.
Proof. reflexivity. Qed.


Example join_ex1 : Path.join "/out" "dir/a.txt" = "/out/dir/a.txt".
Proof. reflexivity. Qed.
Example join_ex2 : Path.join "/out" "../../escape.txt" = "/escape.txt".
Proof. reflexivity. Qed.
Example join_ex3 : Path.join "out/" "dir/" = "out/dir/".
Proof. reflexivity. Qed.
Example join_ex4 : Path.join "../x" "a/../../../b" = "../../b".
Proof. reflexivity. Qed.
Example dirname_ex1 : Path.dirname "/out/dir/a.txt" = "/out/dir".
Proof. reflexivity. Qed.
Example dirname_ex2 : Path.dirname "/out/dir/" = "/out".
Proof. reflexivity. Qed.
Example dirname_ex3 : Path.dirname "a" = ".".
Proof. reflexivity. Qed.
Example dirname_ex4 : Path.dirname "/a" = "/".
Proof. reflexivity. Qed.
Example inside_ex1 : Path.inside "/out" "/out/dir/a.txt" = true.
Proof. reflexivity. Qed.
Example inside_ex2 : Path.inside "/out" "/escape.txt" = false.
Proof. reflexivity. Qed.

(** ** Running the monad *)

Ltac run_m :=
  unfold fs_existsSync, fs_isFile, fs_mkdirp, zipfile_openReadStream, fs_symlinkSync,
    zipfile_readEntry, abort, zipfile_close, emit_end, reject, resolve, uncaught, throw,
    emit, settle, set_idx, get_idx, set_isOpen, set_endListener, get_endListener,
    bind, ret in *;
  cbn [fst snd trace promise idx isOpen endListener] in *.

Lemma non_object_rejected (v : jsval) :
  (forall props, v <> JObject props) ->
  negb (truthy v) || negb (String.eqb (typeof v) "object") = true.
Proof.
  intros H. destruct v; try reflexivity.
  - cbn. destruct b; reflexivity.
  - cbn. destruct (n =? 0); reflexivity.
  - cbn. destruct (String.eqb s ""); reflexivity.
  - exfalso. apply (H props). reflexivity.
Qed.

Lemma not_nonempty_string_rejected (v : jsval) :
  (forall s, v = JString s -> s = "") ->
  negb (truthy v) || negb (String.eqb (typeof v) "string") = true.
Proof.
  intros H. destruct v; try reflexivity.
  - cbn. destruct b; reflexivity.
  - cbn. destruct (n =? 0); reflexivity.
  - rewrite (H s eq_refl). reflexivity.
Qed.

Lemma nonempty_string_accepted (s : string) :
  s <> "" ->
  negb (truthy (JString s)) || negb (String.eqb (typeof (JString s)) "string") = false.
Proof.
  intros H. cbn. destruct (String.eqb_spec s ""); [contradiction | reflexivity].
Qed.

(** C10: an argument that is absent or not an object makes [extractZip]
    reject with the TypeError about [params], without a single call to the
    file system or the archive reader, whatever the world and whatever else
    is wrong. *)
Theorem extractZip_params_not_object (w : world) (params : jsval) :
  (forall props, params <> JObject props) ->
  run w params =
    {| trace := [];
       promise := Some (Rejected (TypeError "Expected params to be an object"));
       idx := 0; isOpen := false; endListener := false |}.
Proof.
  intros H. unfold run, extractZip.
  rewrite (non_object_rejected params H). reflexivity.
Qed.

Lemma extractZip_params_not_object_witness :
  run (sample_world sample_zip) JUndefined =
    {| trace := [];
       promise := Some (Rejected (TypeError "Expected params to be an object"));
       idx := 0; isOpen := false; endListener := false |}.
Proof.
  apply extractZip_params_not_object. intros props H. discriminate H.
Defined.

(** C8: the four preconditions are checked in order, each failure has an
    error of its own, and the call ends there: the destination check and
    the source check touch nothing, the existence check has only asked
    [existsSync], the file check only [existsSync] and [isFile]; the
    archive reader is never called and no handle is open. *)
Theorem extractZip_preconditions (w : world) (props : gmap string jsval) :
  let params := JObject props in
  let dest := get_prop params "dest" in
  let file := get_prop params "file" in
  ((forall s, dest = JString s -> s = "") ->
   run w params = failed_early [] InvalidDestination) /\
  (forall d, dest = JString d -> d <> "" ->
   (forall s, file = JString s -> s = "") ->
   run w params = failed_early [] InvalidSource) /\
  (forall d f, dest = JString d -> d <> "" -> file = JString f -> f <> "" ->
   existsSync w f = false ->
   run w params = failed_early [FsExistsSync f] SourceNotFound) /\
  (forall d f, dest = JString d -> d <> "" -> file = JString f -> f <> "" ->
   existsSync w f = true -> isFile w f = false ->
   run w params = failed_early [FsExistsSync f; FsIsFile f] SourceNotAFile) /\
  NoDup [InvalidDestination; InvalidSource; SourceNotFound; SourceNotAFile].
Proof.
  intros params dest file. unfold run, extractZip.
  change (negb (truthy params) || negb (String.eqb (typeof params) "object")) with false.
  cbv iota. fold dest file.
  split; [| split; [| split; [| split]]].
  - intros Hd. rewrite (not_nonempty_string_rejected dest Hd). reflexivity.
  - intros d Hd Hne Hf. rewrite Hd, (nonempty_string_accepted d Hne).
    rewrite (not_nonempty_string_rejected file Hf). reflexivity.
  - intros d f Hd Hne Hf Hnf Hex.
    rewrite Hd, Hf, (nonempty_string_accepted d Hne), (nonempty_string_accepted f Hnf).
    run_m. cbn. rewrite Hex. reflexivity.
  - intros d f Hd Hne Hf Hnf Hex Hfile.
    rewrite Hd, Hf, (nonempty_string_accepted d Hne), (nonempty_string_accepted f Hnf).
    run_m. cbn. rewrite Hex. cbn. rewrite Hfile. reflexivity.
  - unfold InvalidDestination, InvalidSource, SourceNotFound, SourceNotAFile.
    repeat (apply NoDup_cons_2;
            [rewrite ?elem_of_cons, elem_of_nil; intuition discriminate |]).
    apply NoDup_nil_2.
Qed.

Lemma extractZip_preconditions_witness :
  run (sample_world sample_zip) (JObject (<["dest" := JString ""]> ∅))
    = failed_early [] InvalidDestination /\
  run (sample_world sample_zip) (JObject (<["dest" := JString "/out"]> ∅))
    = failed_early [] InvalidSource /\
  run (sample_world sample_zip)
      (JObject (<["dest" := JString "/out"]> (<["file" := JString "/tmp/b.zip"]> ∅)))
    = failed_early [FsExistsSync "/tmp/b.zip"] SourceNotFound /\
  run (sample_world sample_zip)
      (JObject (<["dest" := JString "/out"]> (<["file" := JString "/tmp"]> ∅)))
    = failed_early [FsExistsSync "/tmp"; FsIsFile "/tmp"] SourceNotAFile.
Proof.
  split; [| split; [| split]].
  - apply (extractZip_preconditions (sample_world sample_zip)).
    intros s H. vm_compute in H. congruence.
  - apply (extractZip_preconditions (sample_world sample_zip)) with (d := "/out").
    + reflexivity.
    + discriminate.
    + intros s H. vm_compute in H. discriminate H.
  - apply (extractZip_preconditions (sample_world sample_zip))
      with (d := "/out") (f := "/tmp/b.zip");
      try reflexivity; discriminate.
  - apply (extractZip_preconditions (sample_world sample_zip))
      with (d := "/out") (f := "/tmp");
      try reflexivity; discriminate.
Defined.


(** ** The 32-bit operators on the values the listener meets *)

Lemma to_int32_small (a : Z) : 0 <= a < 2 ^ 31 -> to_int32 a = a.
Proof.
  intros H. unfold to_int32, to_uint32.
  rewrite Z.mod_small by lia.
  destruct (Z.ltb_spec a (2 ^ 31)); lia.
Qed.

Lemma land_halfword_range (a b : Z) : 0 <= b < 2 ^ 16 -> 0 <= Z.land a b < 2 ^ 16.
Proof.
  intros Hb.
  assert (Hb' : Z.land b (Z.ones 16) = b)
    by (rewrite Z.land_ones by lia; apply Z.mod_small; exact Hb).
  rewrite <- Hb', Z.land_assoc, Z.land_ones by lia.
  apply Z.mod_pos_bound. lia.
Qed.

Lemma js_and_halfword (a b : Z) :
  0 <= a < 2 ^ 31 -> 0 <= b < 2 ^ 16 -> js_and a b = Z.land a b.
Proof.
  intros Ha Hb. unfold js_and.
  rewrite (to_int32_small a Ha), (to_int32_small b) by lia.
  apply to_int32_small.
  pose proof (land_halfword_range a b Hb). lia.
Qed.

Lemma js_ushr_16 (x : Z) : js_ushr x 16 = (x / 2 ^ 16) mod 2 ^ 16.
Proof.
  unfold js_ushr, to_uint32. change (16 mod 32) with 16.
  rewrite Z.shiftr_div_pow2 by lia.
  change (2 ^ 32) with (2 ^ 16 * 2 ^ 16).
  rewrite Z.rem_mul_r by lia.
  rewrite Z.mul_comm, Z.div_add by lia.
  rewrite Z.div_small by (apply Z.mod_pos_bound; lia).
  reflexivity.
Qed.

Lemma entry_mode_bits (ent : entry) :
  entry_mode ent = Z.land (Z.shiftr (externalFileAttributes ent) 16) 65535.
Proof.
  unfold entry_mode. rewrite js_ushr_16.
  pose proof (Z.mod_pos_bound (externalFileAttributes ent / 2 ^ 16) (2 ^ 16)) as Hr.
  rewrite js_and_halfword by lia.
  change 65535 with (Z.ones 16). rewrite !Z.land_ones by lia.
  rewrite Z.shiftr_div_pow2 by lia. apply Zmod_mod.
Qed.

Lemma entry_mode_range (ent : entry) : 0 <= entry_mode ent < 2 ^ 16.
Proof.
  rewrite entry_mode_bits. apply land_halfword_range. lia.
Qed.

Lemma entry_mode_type (ent : entry) :
  js_and (entry_mode ent) S_IFMT = Z.land (entry_mode ent) S_IFMT.
Proof.
  pose proof (entry_mode_range ent).
  apply js_and_halfword; unfold S_IFMT; lia.
Qed.

(** ** One run of the listener *)

Lemma call_onEntry_run (params : jsval) (total : Z) (n : string) (i : Z) (s : state) :
  call_onEntry params n i total s =
    (onEntry_result params n i total,
     mkState (trace s ++ onEntry_events params n i total)
             (promise s) (idx s) (isOpen s) (endListener s)).
Proof.
  unfold call_onEntry, onEntry_result, onEntry_events.
  destruct s as [tr p i0 o l].
  destruct (get_prop params "onEntry"); cbn; rewrite ?app_nil_r; reflexivity.
Qed.

(** The ten ways through the listener: the callback throws; a symbolic
    link whose stream does not open, fails, or ends, the link then made or
    not; a directory; a file whose stream does not open, or whose pipe ends
    in one of three ways. *)
Ltac listener_paths :=
  unfold entry_listener; unfold bind at 1 2 3 4; unfold get_idx, set_idx; cbn [idx];
  rewrite call_onEntry_run; cbn [trace promise idx isOpen endListener];
  destruct (onEntry_result _ _ _ _) eqn:?; [ | destruct (classify _) eqn:? ];
  run_m;
  repeat (match goal with
          | |- context [match openReadStream_err ?io with _ => _ end] =>
              destruct (openReadStream_err io) eqn:?
          | |- context [match read_err ?io with _ => _ end] =>
              destruct (read_err io) eqn:?
          | |- context [match symlinkSync_err ?io with _ => _ end] =>
              destruct (symlinkSync_err io) eqn:?
          | |- context [match pipe_end ?io with _ => _ end] =>
              destruct (pipe_end io) eqn:?
          end; run_m).

Ltac listener_trace :=
  unfold listener_events; listener_paths; try congruence;
  rewrite <- ?app_assoc; cbn [app]; apply drop_app_length.

(** C3: the mode is bits 16 to 31 of the external attributes; an entry is a
    symbolic link exactly when the type bits of the mode say so, otherwise
    a directory exactly when the type bits say so or the entry was packed
    on MS-DOS with external attributes 16, otherwise a regular file.  For a
    directory the listener does one thing after the progress callback: it
    creates the directory at the joined path and asks for the next entry;
    it opens no stream and writes no file. *)
Theorem entry_classification (ent : entry) :
  let mode := Z.land (Z.shiftr (externalFileAttributes ent) 16) 65535 in
  let fmt := Z.land mode S_IFMT in
  let dos_dir := js_shr (versionMadeBy ent) 8 = 0 /\ externalFileAttributes ent = 16 in
  entry_mode ent = mode /\
  (classify ent = Symlink <-> fmt = S_IFLNK) /\
  (classify ent = Directory <-> fmt <> S_IFLNK /\ (fmt = S_IFDIR \/ dos_dir)) /\
  (classify ent = RegularFile <-> fmt <> S_IFLNK /\ ~ (fmt = S_IFDIR \/ dos_dir)) /\
  (forall w params dest total io s,
     classify ent = Directory ->
     onEntry_result params (fileName ent) (idx s + 1) total = None ->
     let p := Path.join dest (fileName ent) in
     listener_events w params dest total ent io s =
       onEntry_events params (fileName ent) (idx s + 1) total ++
       [FsMkdirp p; FsMkdirpDone p (mkdirp_err io); ZipReadEntry]).
Proof.
  intros mode fmt dos_dir.
  assert (Hm : entry_mode ent = mode) by apply entry_mode_bits.
  assert (Hf : js_and (entry_mode ent) S_IFMT = fmt)
    by (rewrite entry_mode_type, Hm; reflexivity).
  split; [exact Hm |].
  split; [| split; [| split]]; cycle 3.
  { intros w params dest total io s Hk Hcb p. subst p. listener_trace. }
  all: unfold classify, entry_symlink, entry_isDir; rewrite Hf; clear Hm Hf;
    subst dos_dir;
    destruct (Z.eqb_spec fmt S_IFLNK) as [Hl | Hl];
    destruct (Z.eqb_spec fmt S_IFDIR) as [Hd | Hd];
    destruct (Z.eqb_spec (js_shr (versionMadeBy ent) 8) 0) as [Hv | Hv];
    destruct (Z.eqb_spec (externalFileAttributes ent) 16) as [Hx | Hx];
    cbn [negb andb];
    split; intros H;
    first [discriminate H | reflexivity | tauto | exfalso; tauto].
Qed.

Lemma entry_classification_witness :
  listener_events (sample_world sample_zip) (sample_params (JFunction quiet)) "/out" 3
    sample_dir (ok_io []) initial =
  [OnEntry "dir/" 1 3; FsMkdirp "/out/dir/"; FsMkdirpDone "/out/dir/" None; ZipReadEntry].
Proof.
  apply (entry_classification sample_dir); reflexivity.
Defined.

(** C6: a regular file whose mode is zero is opened for writing with mode
    0o644 (420), one whose mode is not zero with that mode; the listener
    opens one write stream for the entry, at the joined path. *)
Theorem regular_file_mode w params dest total ent io s :
  classify ent = RegularFile ->
  onEntry_result params (fileName ent) (idx s + 1) total = None ->
  openReadStream_err io = None ->
  let mode := Z.land (Z.shiftr (externalFileAttributes ent) 16) 65535 in
  let created :=
    omap (fun ev => match ev with FsCreateWriteStream p m => Some (p, m) | _ => None end)
         (listener_events w params dest total ent io s) in
  (mode = 0 -> created = [(Path.join dest (fileName ent), 420)]) /\
  (mode <> 0 -> created = [(Path.join dest (fileName ent), mode)]).
Proof.
  intros Hk Hcb Ho mode created.
  assert (Hc : created = [(Path.join dest (fileName ent), file_mode ent)]).
  { subst created.
    assert (H : exists tl, listener_events w params dest total ent io s =
              onEntry_events params (fileName ent) (idx s + 1) total ++
              [FsMkdirp (Path.dirname (Path.join dest (fileName ent)));
               FsMkdirpDone (Path.dirname (Path.join dest (fileName ent))) (mkdirp_err io);
               ZipOpenReadStream (fileName ent);
               FsCreateWriteStream (Path.join dest (fileName ent)) (file_mode ent);
               StreamPipe (fileName ent) (Path.join dest (fileName ent))] ++ tl
              /\ omap (fun ev => match ev with
                                 | FsCreateWriteStream p m => Some (p, m)
                                 | _ => None end) tl = []).
    { unfold listener_events. listener_paths; try congruence;
        rewrite <- ?app_assoc; cbn [app]; rewrite drop_app_length;
        eexists; (split; [reflexivity | reflexivity]). }
    destruct H as (tl & -> & Htl).
    rewrite !omap_app, Htl.
    unfold onEntry_events. destruct (get_prop params "onEntry"); reflexivity. }
  rewrite Hc. unfold file_mode. rewrite entry_mode_bits. fold mode.
  split; intros H.
  - rewrite H. reflexivity.
  - destruct (Z.eqb_spec mode 0); [contradiction | reflexivity].
Qed.

Lemma regular_file_mode_witness :
  omap (fun ev => match ev with FsCreateWriteStream p m => Some (p, m) | _ => None end)
       (listener_events (sample_world sample_zip) (sample_params JUndefined) "/out" 1
          sample_dos_file (ok_io []) initial) = [("/out/b.txt", 420)] /\
  omap (fun ev => match ev with FsCreateWriteStream p m => Some (p, m) | _ => None end)
       (listener_events (sample_world sample_zip) (sample_params JUndefined) "/out" 1
          sample_file (ok_io []) initial) = [("/out/a.txt", 33188)].
Proof.
  split.
  - apply (regular_file_mode (sample_world sample_zip) (sample_params JUndefined) "/out" 1
             sample_dos_file (ok_io []) initial); reflexivity.
  - apply (regular_file_mode (sample_world sample_zip) (sample_params JUndefined) "/out" 1
             sample_file (ok_io []) initial); try reflexivity.
    discriminate.
Defined.

(** C7: for an entry classified as a symbolic link whose content stream
    opens and ends, the listener creates the parent directory, reads the
    stream to its end, and then calls [symlinkSync] with the UTF-8 decoding
    of all the bytes read as the target and the joined path as the place of
    the link; nothing else happens in between. *)
Theorem symlink_materialized w params dest total ent io s :
  classify ent = Symlink ->
  onEntry_result params (fileName ent) (idx s + 1) total = None ->
  openReadStream_err io = None ->
  read_err io = None ->
  let p := Path.join dest (fileName ent) in
  listener_events w params dest total ent io s =
    onEntry_events params (fileName ent) (idx s + 1) total ++
    [FsMkdirp (Path.dirname p); FsMkdirpDone (Path.dirname p) (mkdirp_err io);
     ZipOpenReadStream (fileName ent); ReadStreamEnd (fileName ent);
     FsSymlinkSync (utf8 w (concat (chunks io))) p;
     match symlinkSync_err io with None => ZipReadEntry | Some e => Uncaught e end].
Proof.
  intros Hk Hcb Ho Hr p. subst p. listener_trace.
Qed.

Lemma symlink_materialized_witness :
  listener_events (sample_world sample_zip) (sample_params JUndefined) "/out" 3
    sample_link (ok_io [list_byte_of_string "../"; list_byte_of_string "a.txt"]) initial =
  [FsMkdirp "/out/dir"; FsMkdirpDone "/out/dir" None;
   ZipOpenReadStream "dir/link"; ReadStreamEnd "dir/link";
   FsSymlinkSync "../a.txt" "/out/dir/link"; ZipReadEntry].
Proof.
  apply (symlink_materialized (sample_world sample_zip) (sample_params JUndefined) "/out" 3
           sample_link (ok_io [list_byte_of_string "../"; list_byte_of_string "a.txt"]) initial);
    reflexivity.
Defined.

(** ** Observers and appended events *)


Lemma delivered_snoc tr ev :
  delivered (tr ++ [ev]) = match ev with ZipEntry _ => S (delivered tr) | _ => delivered tr end.
Proof. unfold delivered. rewrite fold_left_app. reflexivity. Qed.

Lemma last_call_snoc tr ev :
  last_call (tr ++ [ev]) =
    match ev with OnEntry n i t => Some (n, i, t) | _ => last_call tr end.
Proof. unfold last_call. rewrite fold_left_app. reflexivity. Qed.

Lemma onEntry_calls_snoc tr ev :
  onEntry_calls (tr ++ [ev]) =
    onEntry_calls tr ++ match ev with OnEntry n i t => [(n, i, t)] | _ => [] end.
Proof. unfold onEntry_calls. rewrite omap_app. destruct ev; reflexivity. Qed.

Lemma onEntry_events_cases params n i t :
  onEntry_events params n i t = [] \/ onEntry_events params n i t = [OnEntry n i t].
Proof. unfold onEntry_events. destruct (get_prop params "onEntry"); auto. Qed.

Lemma onEntry_events_supplied params f n i t :
  get_prop params "onEntry" = JFunction f ->
  onEntry_events params n i t = [OnEntry n i t].
Proof. intros H. unfold onEntry_events. rewrite H. reflexivity. Qed.

Lemma each_event_nil P : each_event P [].
Proof. intros pre ev post H. destruct pre; discriminate H. Qed.

Lemma each_event_snoc P tr ev :
  each_event P tr -> P tr ev -> each_event P (tr ++ [ev]).
Proof.
  intros Htr Hev pre ev' post H.
  destruct post as [| x post' _] using rev_ind.
  - apply app_inj_tail in H as [-> ->]. exact Hev.
  - rewrite app_comm_cons, app_assoc in H.
    apply app_inj_tail in H as [H _]. exact (Htr pre ev' post' H).
Qed.

(** ** From the call to the loop *)

Lemma run_opens w params dest file z :
  opens w params dest file z ->
  run w params =
    snd (readEntry w params dest (entryCount z) (entries z) (opened file dest)).
Proof.
  intros (props & -> & Hd & Hdne & Hf & Hfne & Hex & Hfile & Hopen).
  unfold run, extractZip.
  change (negb (truthy (JObject props))
          || negb (String.eqb (typeof (JObject props)) "object")) with false.
  cbv iota. unfold get_prop. rewrite Hd, Hf. cbn [default from_option string_of id].
  unfold id.
  rewrite (nonempty_string_accepted dest Hdne), (nonempty_string_accepted file Hfne).
  run_m. cbn [initial trace promise idx isOpen endListener app].
  rewrite Hex, Hfile. cbn [negb]. unfold on_open. rewrite Hopen.
  run_m. reflexivity.
Qed.

Lemma readEntry_cons w params dest total ent io es s :
  readEntry w params dest total ((ent, io) :: es) s =
    let (c, s') := entry_listener w params dest total ent io
                     (mkState (trace s ++ [ZipEntry (fileName ent)]) (promise s) (idx s)
                              (isOpen s) (endListener s)) in
    match c with
    | Advance => readEntry w params dest total es s'
    | Halt => (tt, s')
    end.
Proof.
  cbn [readEntry]. unfold bind, emit.
  destruct (entry_listener _ _ _ _ _ _ _) as [[|] s']; reflexivity.
Qed.

Ltac listener_paths_in H :=
  unfold entry_listener in H; unfold bind, get_idx, set_idx in H; cbn [idx] in H;
  rewrite call_onEntry_run in H; cbn [trace promise idx isOpen endListener] in H;
  destruct (onEntry_result _ _ _ _) eqn:?; [ | destruct (classify _) eqn:? ];
  run_m;
  repeat (match type of H with
          | context [match openReadStream_err ?io with _ => _ end] =>
              destruct (openReadStream_err io) eqn:?
          | context [match read_err ?io with _ => _ end] =>
              destruct (read_err io) eqn:?
          | context [match symlinkSync_err ?io with _ => _ end] =>
              destruct (symlinkSync_err io) eqn:?
          | context [match pipe_end ?io with _ => _ end] =>
              destruct (pipe_end io) eqn:?
          end; run_m);
  injection H as <- <-.

(** ** The loop: one entry at a time *)

Section Loop.

Variables (w : world) (params : jsval) (dest : string) (total : Z).
Variable all : list (entry * entry_io).


End Loop.


Lemma sample_opens (onEntry : jsval) (z : zipfile) :
  opens (sample_world z) (sample_params onEntry) "/out" "/tmp/a.zip" z.
Proof.
  exists (<["dest" := JString "/out"]>
          (<["file" := JString "/tmp/a.zip"]> (<["onEntry" := onEntry]> ∅))).
  repeat split; try reflexivity; discriminate.
Defined.


(** ** The loop: the progress callback *)

Section Progress.

Variables (w : world) (params : jsval) (dest : string) (total : Z).
Variable f : callback.
Hypothesis supplied : get_prop params "onEntry" = JFunction f.

Lemma readEntry_progress_calls es : forall s,
  promise s = None ->
  let s' := snd (readEntry w params dest total es s) in
  let names := map (fun e => fileName (fst e)) es in
  (exists k, onEntry_calls (trace s') =
             onEntry_calls (trace s) ++ progress_calls (take k names) (idx s + 1) total) /\
  (promise s' = Some Fulfilled ->
   onEntry_calls (trace s') =
     onEntry_calls (trace s) ++ progress_calls names (idx s + 1) total).
Proof.
  induction es as [| [ent io] es IH]; intros s Hp; cbv zeta.
  - cbn [readEntry]. run_m. destruct (endListener s); run_m; cbn [map progress_calls].
    all: rewrite !onEntry_calls_snoc, !app_nil_r.
    all: split; [exists 0%nat; cbn; rewrite app_nil_r; reflexivity | reflexivity].
  - rewrite readEntry_cons.
    destruct (entry_listener _ _ _ _ _ _ _) as [c s'] eqn:Hrun.
    listener_paths_in Hrun.
    all: rewrite (onEntry_events_supplied _ _ _ _ _ supplied).
    all: cbn [map fst progress_calls].
    all: try (match goal with
              | |- context [readEntry _ _ _ _ _ ?st] =>
                  destruct (IH st Hp) as [[k Hk] Hall]; cbn [trace idx] in Hk, Hall;
                  rewrite !onEntry_calls_snoc, ?app_nil_r in Hk, Hall;
                  split;
                  [ exists (S k); cbn [firstn progress_calls];
                    etransitivity; [exact Hk |]; rewrite <- app_assoc; reflexivity
                  | intros HF; etransitivity; [exact (Hall HF) |];
                    rewrite <- app_assoc; reflexivity ]
              end).
    all: cbn [snd trace promise]; rewrite ?Hp.
    all: rewrite !onEntry_calls_snoc, ?app_nil_r.
    all: split; [exists 1%nat; cbn; rewrite ?take_0; reflexivity | intros H; discriminate H].
Qed.

Lemma readEntry_after_its_call es : forall s,
  idx s = Z.of_nat (delivered (trace s)) ->
  each_event (after_its_call dest total) (trace s) ->
  each_event (after_its_call dest total)
             (trace (snd (readEntry w params dest total es s))).
Proof.
  induction es as [| [ent io] es IH]; intros s Hidx Hinv.
  - cbn [readEntry]. run_m. destruct (endListener s); run_m.
    all: repeat apply each_event_snoc; try exact Hinv.
    all: intros p H; discriminate H.
  - rewrite readEntry_cons.
    destruct (entry_listener _ _ _ _ _ _ _) as [c s'] eqn:Hrun.
    listener_paths_in Hrun.
    all: rewrite (onEntry_events_supplied _ _ _ _ _ supplied).
    all: try (apply IH;
              [ cbn [trace idx]; rewrite !delivered_snoc; cbn; lia | ]).
    all: cbn [snd trace]; repeat apply each_event_snoc; try exact Hinv.
    all: intros p H; cbn in H; first
          [ discriminate H
          | injection H as <-; exists (fileName ent), (idx s + 1);
            rewrite !last_call_snoc, !delivered_snoc; cbn;
            split; [reflexivity |]; split; [lia | auto] ].
Qed.

End Progress.

(** C5: when a progress callback is supplied, the calls made to it in a
    run that opens an archive of N entries are, in order, the calls
    [(name, i, N)] for the first k entries, i counting from 1: no entry is
    reported twice or out of turn; when the extraction completes, k is N,
    one call per entry.  Whatever the listener creates, it creates after
    the call for the entry delivered last, at that entry's path or its
    parent. *)
Theorem progress_callback w params dest file z f :
  opens w params dest file z ->
  get_prop params "onEntry" = JFunction f ->
  let s := run w params in
  let names := map (fun e => fileName (fst e)) (entries z) in
  let N := entryCount z in
  (exists k, onEntry_calls (trace s) = progress_calls (take k names) 1 N) /\
  (promise s = Some Fulfilled -> onEntry_calls (trace s) = progress_calls names 1 N) /\
  each_event (after_its_call dest N) (trace s).
Proof.
  intros Hopen Hf s names N. subst s. rewrite (run_opens _ _ _ _ _ Hopen).
  destruct (readEntry_progress_calls w params dest N f Hf (entries z) (opened file dest)
              eq_refl) as [Hk Hall].
  split; [exact Hk |]. split; [exact Hall |].
  apply (readEntry_after_its_call w params dest N f Hf).
  - reflexivity.
  - cbn [opened trace].
    change [FsExistsSync file; FsIsFile file; Log file dest; YauzlOpen file true; ZipReadEntry]
      with ((((([] ++ [FsExistsSync file]) ++ [FsIsFile file]) ++ [Log file dest])
               ++ [YauzlOpen file true]) ++ [ZipReadEntry]).
    repeat apply each_event_snoc; try apply each_event_nil.
    all: intros p H; discriminate H.
Qed.

Lemma progress_callback_witness :
  onEntry_calls (trace (run (sample_world sample_zip) (sample_params (JFunction quiet))))
    = [("a.txt", 1, 3); ("dir/", 2, 3); ("dir/link", 3, 3)] /\
  each_event (after_its_call "/out" 3)
             (trace (run (sample_world sample_zip) (sample_params (JFunction quiet)))).
Proof.
  destruct (progress_callback (sample_world sample_zip) (sample_params (JFunction quiet))
              "/out" "/tmp/a.zip" sample_zip quiet
              (sample_opens (JFunction quiet) sample_zip) eq_refl)
    as (_ & Hall & Hev).
  split; [apply Hall; reflexivity | exact Hev].
Defined.

(** ** Closing the archive *)

Lemma close_count_snoc tr ev :
  close_count (tr ++ [ev]) =
    match ev with ZipClose => S (close_count tr) | _ => close_count tr end.
Proof.
  unfold close_count. rewrite List.filter_app, length_app.
  destruct ev; cbn; lia.
Qed.

(** The archive is never closed twice; it is closed once when the promise
    is fulfilled and on every [abort]; it stays open on the two ways out
    that do not go through [abort]: the progress callback throws, or an
    exception is not caught. *)
Lemma readEntry_close_count w params dest total es : forall s,
  isOpen s = true -> promise s = None -> endListener s = true ->
  let s' := snd (readEntry w params dest total es s) in
  (close_count (trace s') = S (close_count (trace s)) /\ isOpen s' = false) \/
  (close_count (trace s') = close_count (trace s) /\ isOpen s' = true /\
   promise s' <> Some Fulfilled).
Proof.
  induction es as [| [ent io] es IH]; intros s Ho Hp Hl; cbv zeta.
  - cbn [readEntry]. run_m. rewrite Hl. run_m.
    left. rewrite !close_count_snoc. split; reflexivity.
  - rewrite readEntry_cons.
    destruct (entry_listener _ _ _ _ _ _ _) as [c s'] eqn:Hrun.
    listener_paths_in Hrun.
    all: destruct (onEntry_events_cases params (fileName ent) (idx s + 1) total)
           as [-> | ->]; rewrite ?app_nil_r.
    all: try (match goal with
              | |- context [readEntry _ _ _ _ _ ?st] =>
                  specialize (IH st Ho Hp Hl); cbv zeta in IH; cbn [trace] in IH;
                  rewrite !close_count_snoc in IH; exact IH
              end).
    all: cbn [snd trace promise isOpen]; rewrite !close_count_snoc, ?Hp.
    all: first [ left; split; reflexivity
               | right; split; [reflexivity |]; split; [exact Ho | discriminate] ].
Qed.

Lemma run_close_count w params dest file z :
  opens w params dest file z ->
  let s := run w params in
  (close_count (trace s) = 1%nat /\ isOpen s = false) \/
  (close_count (trace s) = 0%nat /\ isOpen s = true /\ promise s <> Some Fulfilled).
Proof.
  intros Hopen. cbv zeta. rewrite (run_opens _ _ _ _ _ Hopen).
  exact (readEntry_close_count w params dest (entryCount z) (entries z) (opened file dest)
           eq_refl eq_refl eq_refl).
Qed.

(** C1 fails on the code: with three entries and a progress callback that
    throws on the second, the promise is rejected with what was thrown, the
    first file has been written and the third entry is never delivered, but
    [zipfile.close()] is not called and the archive is still open. *)
Theorem onEntry_throw_leaves_archive_open :
  let s := run (sample_world sample_zip) (sample_params (JFunction throws_on_second)) in
  promise s = Some (Rejected (Error "stop")) /\
  In (WriteStreamClose "/out/a.txt") (trace s) /\
  delivered (trace s) = 2%nat /\
  last_event (trace s) = Some (Reject (Error "stop")) /\
  close_count (trace s) = 0%nat /\
  isOpen s = true.
Proof.
  vm_compute. repeat split; auto 20.
Qed.

(** C4 fails on the code: the error handed to the callback of [mkdirp] is
    dropped.  The directory of the first entry cannot be created, yet the
    listener asks for the next entry, the file after it is written, and the
    promise is fulfilled: the caller never sees the error. *)
Theorem mkdirp_error_swallowed :
  let s := run (sample_world unwritable_dir_zip) (sample_params JUndefined) in
  In (FsMkdirpDone "/out/dir/" (Some EACCES)) (trace s) /\
  In (WriteStreamClose "/out/a.txt") (trace s) /\
  delivered (trace s) = 2%nat /\
  promise s = Some Fulfilled.
Proof.
  vm_compute. repeat split; auto 20.
Qed.

(** Another error that does not reach the caller: a read stream piped into
    a file has no [error] listener, so a corrupt entry raises an exception
    nobody catches; the promise stays pending and the archive open. *)
Lemma read_error_uncaught :
  let s := run (sample_world corrupt_file_zip) (sample_params JUndefined) in
  last_event (trace s) = Some (Uncaught Z_DATA_ERROR) /\
  promise s = None /\
  isOpen s = true.
Proof.
  vm_compute. repeat split.
Qed.

(** ** Paths *)

Section PathFacts.

Import Path.




























End PathFacts.






(** * More of util.js *)

(** ** version.format *)

Lemma vsplit_not_nil s : Version.split s <> [].
Proof.
  destruct s as [| c r]; cbn [Version.split]; [discriminate |].
  destruct (Version.is_dot c); [discriminate |].
  destruct (Version.split r); discriminate.
Qed.

Lemma vsplit_app a b :
  Version.split (a +:+ "." +:+ b) = Version.split a ++ Version.split b.
Proof.
  induction a as [| c a IH]; [reflexivity |].
  change (String c a +:+ "." +:+ b) with (String c (a +:+ "." +:+ b)).
  cbn [Version.split]. rewrite IH.
  destruct (Version.is_dot c); [reflexivity |].
  pose proof (vsplit_not_nil a) as Hne.
  destruct (Version.split a); [contradiction | reflexivity].
Qed.

Lemma vsplit_no_dot s : Forall (fun x => Version.has_dot x = false) (Version.split s).
Proof.
  induction s as [| c r IH]; cbn [Version.split].
  - repeat constructor.
  - destruct (Version.is_dot c) eqn:Hc.
    + constructor; [reflexivity | exact IH].
    + destruct (Version.split r) as [| h t].
      * repeat constructor. cbn [Version.has_dot]. rewrite Hc. reflexivity.
      * inversion IH as [| ? ? Hh Ht]; subst.
        constructor; [cbn [Version.has_dot]; rewrite Hc; exact Hh | exact Ht].
Qed.

Lemma vsplit_single s : Version.has_dot s = false -> Version.split s = [s].
Proof.
  induction s as [| c r IH]; intros H; [reflexivity |].
  cbn [Version.has_dot] in H. apply orb_false_iff in H as [Hc Hr].
  cbn [Version.split]. rewrite Hc, (IH Hr). reflexivity.
Qed.

Lemma concat_dot_cons x l :
  String.concat "." (x :: l) =
    match l with [] => x | _ :: _ => x +:+ "." +:+ String.concat "." l end.
Proof. destruct l; reflexivity. Qed.

(** Splitting what was joined gives the pieces back. *)
Lemma vsplit_concat l :
  l <> [] -> Forall (fun x => Version.has_dot x = false) l ->
  Version.split (String.concat "." l) = l.
Proof.
  induction l as [| x l IH]; intros Hne Hl; [contradiction |].
  inversion Hl as [| ? ? Hx Hl']; subst.
  rewrite concat_dot_cons. destruct l as [| y l].
  - apply vsplit_single, Hx.
  - rewrite vsplit_app, (vsplit_single x Hx), IH by (discriminate || exact Hl').
    reflexivity.
Qed.

(** Joining what was split gives the string back. *)
Lemma concat_vsplit s : String.concat "." (Version.split s) = s.
Proof.
  induction s as [| c r IH]; [reflexivity |].
  cbn [Version.split]. pose proof (vsplit_not_nil r) as Hne.
  destruct (Version.is_dot c) eqn:Hc.
  - rewrite concat_dot_cons. destruct (Version.split r) as [| h t]; [contradiction |].
    rewrite IH. unfold Version.is_dot in Hc. apply Ascii.eqb_eq in Hc. subst c.
    reflexivity.
  - destruct (Version.split r) as [| h t]; [contradiction |].
    rewrite concat_dot_cons in IH |- *. destruct t; rewrite <- IH; reflexivity.
Qed.

Lemma push_zeros_length m l :
  Z.of_nat (List.length (Version.push_zeros m l)) = Z.max (Z.of_nat (List.length l)) m.
Proof. unfold Version.push_zeros. rewrite length_app, length_replicate. lia. Qed.

Lemma push_zeros_enough m l :
  m <= Z.of_nat (List.length l) -> Version.push_zeros m l = l.
Proof.
  intros H. unfold Version.push_zeros.
  replace (Z.to_nat (m - Z.of_nat (List.length l))) with 0%nat by lia.
  apply app_nil_r.
Qed.

Lemma slice0_nonneg m l :
  0 <= m -> Version.slice0 m l = take (Z.to_nat m) l.
Proof.
  intros H. unfold Version.slice0.
  destruct (Z.ltb_spec m 0); [lia |].
  destruct (Z.le_gt_cases m (Z.of_nat (List.length l))).
  - rewrite Z.min_l by lia. reflexivity.
  - rewrite Z.min_r by lia. rewrite Nat2Z.id.
    rewrite !take_ge by lia. reflexivity.
Qed.

Lemma take_push_zeros n l :
  0 <= n ->
  take (Z.to_nat n) (Version.push_zeros n l) = take (Z.to_nat n) (l ++ replicate (Z.to_nat n) "0").
Proof.
  intros Hn. unfold Version.push_zeros.
  destruct (Z.le_gt_cases n (Z.of_nat (List.length l))) as [H | H].
  - rewrite !take_app_le by lia. reflexivity.
  - rewrite !take_app_ge by lia. f_equal.
    rewrite !take_replicate. f_equal. lia.
Qed.

Lemma vformat_raw other ver chop :
  Version.format other ver None None chop =
    let s := Version.to_string other (if truthy ver then ver else JNumber 0) in
    if truthy chop then Version.chop_dash s else s.
Proof. unfold Version.format. cbv zeta. apply concat_vsplit. Qed.

Lemma vformat_split other ver min max chop :
  Version.format other ver min max chop =
    String.concat "."
      (let l := Version.split (Version.format other ver None None chop) in
       let l := match min with Some m => Version.push_zeros m l | None => l end in
       match max with Some m => Version.slice0 m l | None => l end).
Proof. rewrite vformat_raw. reflexivity. Qed.

Lemma Forall_no_dot_zeros k :
  Forall (fun x => Version.has_dot x = false) (replicate k "0").
Proof. induction k; constructor; [reflexivity | assumption]. Qed.

Lemma vformat_closed other ver chop n :
  0 <= n ->
  Version.format other ver (Some n) (Some n) chop =
    String.concat "."
      (take (Z.to_nat n)
            (Version.split (Version.format other ver None None chop)
             ++ replicate (Z.to_nat n) "0")).
Proof.
  intros Hn. rewrite vformat_split. cbv zeta.
  rewrite slice0_nonneg, take_push_zeros by exact Hn. reflexivity.
Qed.

Lemma vformat_string other s min max chop :
  s <> "" -> truthy chop = false ->
  Version.format other (JString s) min max chop =
    String.concat "."
      (let l := Version.split s in
       let l := match min with Some m => Version.push_zeros m l | None => l end in
       match max with Some m => Version.slice0 m l | None => l end).
Proof.
  intros Hs Hc. unfold Version.format. cbn [truthy].
  destruct (String.eqb_spec s ""); [contradiction |].
  cbn [negb Version.to_string]. rewrite Hc. reflexivity.
Qed.

(** X1: with [min] and [max] both n, n at least 1, the result has exactly n
    segments: the first n segments of the version as written, then zeros
    for the ones that are missing. *)
Theorem format_exact_segments other ver chop n :
  1 <= n ->
  let raw := Version.format other ver None None chop in
  let out := Version.format other ver (Some n) (Some n) chop in
  Version.split out = take (Z.to_nat n) (Version.split raw ++ replicate (Z.to_nat n) "0") /\
  List.length (Version.split out) = Z.to_nat n.
Proof.
  intros Hn raw out. subst out.
  rewrite vformat_closed by lia. fold raw.
  assert (Hlen : List.length (take (Z.to_nat n)
                   (Version.split raw ++ replicate (Z.to_nat n) "0")) = Z.to_nat n).
  { rewrite length_take, length_app, length_replicate. lia. }
  rewrite vsplit_concat.
  - split; [reflexivity | exact Hlen].
  - intros H. rewrite H in Hlen. cbn in Hlen. lia.
  - apply Forall_take, Forall_app. split; [apply vsplit_no_dot | apply Forall_no_dot_zeros].
Qed.

Lemma format_exact_segments_witness :
  Version.split (Version.format (fun _ => "") (JString "5.1") (Some 3) (Some 3) JUndefined)
    = ["5"; "1"; "0"] /\
  List.length
    (Version.split (Version.format (fun _ => "") (JString "5.1") (Some 3) (Some 3) JUndefined))
    = 3%nat.
Proof.
  apply (format_exact_segments (fun _ => "") (JString "5.1") JUndefined 3). lia.
Defined.

(** X2: a version with fewer than [min] segments and the same version with
    [.0] appended are formatted alike. *)
Theorem format_trailing_zero other s n max chop :
  s <> "" -> truthy chop = false ->
  Z.of_nat (List.length (Version.split s)) < n ->
  Version.format other (JString (s +:+ ".0")) (Some n) max chop =
  Version.format other (JString s) (Some n) max chop.
Proof.
  intros Hs Hc Hlen.
  rewrite !vformat_string by first [assumption | destruct s; [contradiction | discriminate]].
  cbv zeta. f_equal.
  assert (Hpush : Version.push_zeros n (Version.split (s +:+ ".0")) =
                  Version.push_zeros n (Version.split s)).
  { change (s +:+ ".0") with (s +:+ "." +:+ "0"). rewrite vsplit_app.
    unfold Version.push_zeros. rewrite length_app, <- app_assoc. f_equal.
    cbn [Version.split Version.is_dot List.length].
    change (Version.split "0") with ["0"].
    replace (Z.to_nat (n - Z.of_nat (List.length (Version.split s))))
      with (S (Z.to_nat (n - Z.of_nat (List.length (Version.split s) + 1)))) by lia.
    reflexivity. }
  rewrite Hpush. reflexivity.
Qed.

Lemma format_trailing_zero_witness :
  Version.format (fun _ => "") (JString "7.0") (Some 3) (Some 3) JUndefined =
  Version.format (fun _ => "") (JString "7") (Some 3) (Some 3) JUndefined.
Proof.
  apply (format_trailing_zero (fun _ => "") "7" 3 (Some 3) JUndefined).
  - discriminate.
  - reflexivity.
  - vm_compute. reflexivity.
Defined.

(** X3: segments after the first [max] do not count: whatever follows a
    version that has [max] segments or more is dropped. *)
Theorem format_ignores_extra other s t min m chop :
  s <> "" -> truthy chop = false ->
  0 <= m <= Z.of_nat (List.length (Version.split s)) ->
  Version.format other (JString (s +:+ "." +:+ t)) min (Some m) chop =
  Version.format other (JString s) min (Some m) chop.
Proof.
  intros Hs Hc Hm.
  rewrite !vformat_string by first [assumption | destruct s; [contradiction | discriminate]].
  cbv zeta. f_equal. rewrite vsplit_app, !slice0_nonneg by lia.
  destruct min as [k |]; unfold Version.push_zeros;
    rewrite ?(take_app_le (Version.split s ++ _)) by (rewrite length_app; lia);
    rewrite !take_app_le by lia; reflexivity.
Qed.

Lemma format_ignores_extra_witness :
  Version.format (fun _ => "") (JString "8.1.2.GA") (Some 3) (Some 3) JUndefined =
  Version.format (fun _ => "") (JString "8.1.2") (Some 3) (Some 3) JUndefined.
Proof.
  apply (format_ignores_extra (fun _ => "") "8.1.2" "GA" (Some 3) 3 JUndefined).
  - discriminate.
  - reflexivity.
  - vm_compute. split; discriminate.
Defined.

Lemma has_dash_app a b :
  Version.has_dash (a +:+ b) = Version.has_dash a || Version.has_dash b.
Proof.
  induction a as [| c a IH]; [reflexivity |].
  change (String c a +:+ b) with (String c (a +:+ b)).
  cbn [Version.has_dash]. rewrite IH. apply orb_assoc.
Qed.

Lemma chop_dash_no_dash s : Version.has_dash s = false -> Version.chop_dash s = s.
Proof.
  induction s as [| c r IH]; intros H; [reflexivity |].
  cbn [Version.has_dash] in H. apply orb_false_iff in H as [Hc Hr].
  cbn [Version.chop_dash]. rewrite Hc, (IH Hr). reflexivity.
Qed.

Lemma chop_dash_prefix a b :
  Version.has_dash a = false -> Version.has_line_terminator b = false ->
  Version.chop_dash (a +:+ "-" +:+ b) = a.
Proof.
  intros Ha Hb. induction a as [| c a IH].
  - change ("" +:+ "-" +:+ b) with (String "-" b).
    cbn [Version.chop_dash]. rewrite Hb. reflexivity.
  - cbn [Version.has_dash] in Ha. apply orb_false_iff in Ha as [Hc Ha].
    change (String c a +:+ "-" +:+ b) with (String c (a +:+ "-" +:+ b)).
    cbn [Version.chop_dash]. rewrite Hc, (IH Ha). reflexivity.
Qed.

Lemma chop_dash_clean s :
  Version.has_line_terminator s = false -> Version.has_dash (Version.chop_dash s) = false.
Proof.
  induction s as [| c r IH]; intros H; [reflexivity |].
  cbn [Version.has_line_terminator] in H. apply orb_false_iff in H as [_ Hr].
  cbn [Version.chop_dash]. rewrite Hr. cbn [negb]. rewrite andb_true_r.
  destruct (Version.is_dash c) eqn:Hc; [reflexivity |].
  cbn [Version.has_dash]. rewrite Hc. exact (IH Hr).
Qed.

Lemma vsplit_no_dash s :
  Version.has_dash s = false -> Forall (fun x => Version.has_dash x = false) (Version.split s).
Proof.
  induction s as [| c r IH]; intros H; cbn [Version.split].
  - repeat constructor.
  - cbn [Version.has_dash] in H. apply orb_false_iff in H as [Hc Hr].
    specialize (IH Hr). destruct (Version.is_dot c).
    + constructor; [reflexivity | exact IH].
    + destruct (Version.split r) as [| h t].
      * repeat constructor. cbn [Version.has_dash]. rewrite Hc. reflexivity.
      * inversion IH; subst. constructor; [| assumption].
        cbn [Version.has_dash]. rewrite Hc. assumption.
Qed.

Lemma concat_no_dash l :
  Forall (fun x => Version.has_dash x = false) l ->
  Version.has_dash (String.concat "." l) = false.
Proof.
  induction l as [| x l IH]; intros H; [reflexivity |].
  inversion H as [| ? ? Hx Hl]; subst. rewrite concat_dot_cons.
  destruct l as [| y l]; [exact Hx |].
  rewrite !has_dash_app, Hx, (IH Hl). reflexivity.
Qed.

(** X4: with [chopDash], a version and what follows its first dash are
    cut apart: [a-b] is formatted as [a] is. *)
Theorem format_chops_suffix other a b min max chop chop' :
  a <> "" -> Version.has_dash a = false -> Version.has_line_terminator b = false ->
  truthy chop = true ->
  Version.format other (JString (a +:+ "-" +:+ b)) min max chop =
  Version.format other (JString a) min max chop'.
Proof.
  intros Ha Hd Hb Hc.
  assert (Hraw : forall c', Version.format other (JString a) None None c' = a).
  { intros c'. rewrite vformat_raw. cbn [truthy].
    destruct (String.eqb_spec a ""); [contradiction |]. cbn [negb Version.to_string].
    destruct (truthy c'); [apply chop_dash_no_dash, Hd | reflexivity]. }
  rewrite (vformat_split other (JString a)), Hraw.
  rewrite vformat_split. f_equal.
  rewrite vformat_raw. cbn [truthy].
  assert (Hne : a +:+ "-" +:+ b <> "") by (destruct a; [contradiction | discriminate]).
  destruct (String.eqb_spec (a +:+ "-" +:+ b) ""); [contradiction |].
  cbn [negb Version.to_string]. rewrite Hc, chop_dash_prefix by assumption. reflexivity.
Qed.

Lemma format_chops_suffix_witness :
  Version.format (fun _ => "") (JString "8.0.0-beta.1") (Some 3) (Some 3) (JBoolean true) =
  Version.format (fun _ => "") (JString "8.0.0") (Some 3) (Some 3) JUndefined.
Proof.
  apply (format_chops_suffix (fun _ => "") "8.0.0" "beta.1" (Some 3) (Some 3)
           (JBoolean true) JUndefined); try reflexivity.
  discriminate.
Defined.

(** X5: with [chopDash], the result for a version written on one line has
    no dash in it, whatever the other arguments. *)
Theorem format_chopped_has_no_dash other ver min max chop :
  truthy chop = true ->
  Version.has_line_terminator (Version.format other ver None None JUndefined) = false ->
  Version.has_dash (Version.format other ver min max chop) = false.
Proof.
  intros Hc Hlt. rewrite vformat_split. cbv zeta.
  rewrite vformat_raw in Hlt |- *. cbv zeta in Hlt |- *. rewrite Hc. cbn [truthy] in Hlt.
  apply concat_no_dash.
  pose proof (vsplit_no_dash _ (chop_dash_clean _ Hlt)) as Hsplit.
  assert (Hz : forall k, Forall (fun x => Version.has_dash x = false) (replicate k "0"))
    by (induction k; constructor; [reflexivity | assumption]).
  destruct min as [k |], max as [m |]; unfold Version.slice0, Version.push_zeros;
    try apply Forall_take; try apply Forall_app; try split; auto.
Qed.

Lemma format_chopped_has_no_dash_witness :
  Version.has_dash
    (Version.format (fun _ => "") (JString "7.5.0-rc-2") (Some 3) (Some 3) (JBoolean true))
  = false.
Proof.
  apply (format_chopped_has_no_dash (fun _ => "") (JString "7.5.0-rc-2")); reflexivity.
Defined.

(** X6: without [chopDash] and with no negative [max], formatting what was
    formatted changes nothing, unless the first result is the empty
    string. *)
Theorem format_idempotent other ver min max chop :
  truthy chop = false ->
  (forall m, max = Some m -> 0 <= m) ->
  let out := Version.format other ver min max chop in
  out <> "" ->
  Version.format other (JString out) min max chop = out.
Proof.
  intros Hc Hmax out Hout.
  rewrite vformat_string by assumption. cbv zeta.
  subst out. rewrite vformat_split in Hout |- *. cbv zeta in Hout |- *.
  set (l0 := Version.split (Version.format other ver None None chop)) in *.
  assert (H0 : Forall (fun x => Version.has_dot x = false) l0) by apply vsplit_no_dot.
  set (l1 := match min with Some m => Version.push_zeros m l0 | None => l0 end) in *.
  assert (H1 : Forall (fun x => Version.has_dot x = false) l1).
  { subst l1. destruct min; [| exact H0].
    apply Forall_app. split; [exact H0 | apply Forall_no_dot_zeros]. }
  assert (Hl1 : forall k, min = Some k -> k <= Z.of_nat (List.length l1)).
  { intros k ->. subst l1. pose proof (push_zeros_length k l0). lia. }
  set (l2 := match max with Some m => Version.slice0 m l1 | None => l1 end) in *.
  assert (H2 : Forall (fun x => Version.has_dot x = false) l2).
  { subst l2. destruct max; [| exact H1]. apply Forall_take, H1. }
  rewrite vsplit_concat; [| intros E; rewrite E in Hout; exact (Hout eq_refl) | exact H2].
  f_equal. subst l2. destruct max as [m |].
  - specialize (Hmax m eq_refl). rewrite !slice0_nonneg by exact Hmax.
    destruct min as [k |].
    + specialize (Hl1 k eq_refl).
      destruct (Z.le_gt_cases m (Z.of_nat (List.length l1))) as [Hm | Hm].
      * unfold Version.push_zeros. rewrite take_app_le by (rewrite length_take; lia).
        apply take_take_eq || (rewrite take_take; f_equal; lia).
      * rewrite (take_ge l1) by lia.
        rewrite push_zeros_enough by exact Hl1. apply take_ge. lia.
    + rewrite take_take. f_equal. lia.
  - destruct min as [k |]; [| reflexivity].
    apply push_zeros_enough, Hl1. reflexivity.
Qed.

Lemma format_idempotent_witness :
  Version.format (fun _ => "")
    (JString (Version.format (fun _ => "") (JString "9.1.0.v20200101") (Some 3) (Some 3)
                JUndefined))
    (Some 3) (Some 3) JUndefined
  = Version.format (fun _ => "") (JString "9.1.0.v20200101") (Some 3) (Some 3) JUndefined.
Proof.
  apply (format_idempotent (fun _ => "") (JString "9.1.0.v20200101") (Some 3) (Some 3)
           JUndefined).
  - reflexivity.
  - intros m H. injection H as <-. lia.
  - discriminate.
Defined.

(** X7: [eq], [lt] and [rcompare] see of a version only its first three
    segments, a missing one counting as 0: two versions that agree on
    these compare alike with everything. *)
Theorem compare_first_three sv other s1 s1' s2 s2' :
  s1 <> "" -> s1' <> "" -> s2 <> "" -> s2' <> "" ->
  take 3 (Version.split s1 ++ replicate 3 "0") = take 3 (Version.split s1' ++ replicate 3 "0") ->
  take 3 (Version.split s2 ++ replicate 3 "0") = take 3 (Version.split s2' ++ replicate 3 "0") ->
  Version.eq sv other (JString s1) (JString s2) =
    Version.eq sv other (JString s1') (JString s2') /\
  Version.lt sv other (JString s1) (JString s2) =
    Version.lt sv other (JString s1') (JString s2') /\
  Version.rcompare sv other (JString s1) (JString s2) =
    Version.rcompare sv other (JString s1') (JString s2').
Proof.
  intros H1 H1' H2 H2' E1 E2.
  assert (Hf : forall s, s <> "" ->
            Version.format other (JString s) (Some 3) (Some 3) JUndefined =
            String.concat "." (take 3 (Version.split s ++ replicate 3 "0"))).
  { intros s Hs. rewrite vformat_closed by lia. rewrite vformat_raw. cbn [truthy].
    destruct (String.eqb_spec s ""); [contradiction | reflexivity]. }
  unfold Version.rcompare, Version.eq, Version.lt.
  rewrite !Hf by assumption. rewrite E1, E2. repeat split.
Qed.

Lemma compare_first_three_witness :
  Version.eq sample_semver (fun _ => "") (JString "8") (JString "8.0.0.GA") =
    Version.eq sample_semver (fun _ => "") (JString "8.0") (JString "8.0.0") /\
  Version.lt sample_semver (fun _ => "") (JString "8") (JString "8.0.0.GA") =
    Version.lt sample_semver (fun _ => "") (JString "8.0") (JString "8.0.0") /\
  Version.rcompare sample_semver (fun _ => "") (JString "8") (JString "8.0.0.GA") =
    Version.rcompare sample_semver (fun _ => "") (JString "8.0") (JString "8.0.0").
Proof.
  apply (compare_first_three sample_semver (fun _ => "") "8" "8.0" "8.0.0.GA" "8.0.0");
    try discriminate; reflexivity.
Defined.

(** ** buildRequestParams *)

Lemma prop_of_lookup (p q : gmap string Request.pval) k :
  q !! k = p !! k -> Request.prop q k = Request.prop p k.
Proof. intros H. unfold Request.prop. rewrite H. reflexivity. Qed.

Lemma prop_insert (p : gmap string Request.pval) k v :
  Request.prop (<[k := v]> p) k = v.
Proof. unfold Request.prop. rewrite lookup_insert_eq. reflexivity. Qed.

(** Each statement of [buildRequestParams] writes one key, and only when
    the caller left it unset. *)
Lemma read_into_keeps pf k file p o q k' :
  Request.read_into pf k file p = (o, q) ->
  (k' = k -> Request.ptruthy (Request.prop p k) = true) ->
  q !! k' = p !! k'.
Proof.
  unfold Request.read_into. intros H Hk.
  destruct (Request.ptruthy (Request.prop p k)) eqn:Ht; cbn [negb andb] in H.
  - injection H as _ <-. reflexivity.
  - destruct (truthy file && Request.is_file pf file).
    + destruct (Request.readFileSync pf file); injection H as _ <-; [reflexivity |].
      apply lookup_insert_ne. intros ->. specialize (Hk eq_refl). discriminate Hk.
    + injection H as _ <-. reflexivity.
Qed.

Lemma set_proxy_keeps pf net p k' :
  (k' = "proxy" -> Request.ptruthy (Request.prop p "proxy") = true) ->
  Request.set_proxy pf net p !! k' = p !! k'.
Proof.
  unfold Request.set_proxy. intros Hk.
  destruct (Request.ptruthy (Request.prop p "proxy")) eqn:Ht; cbn [negb andb];
    [reflexivity |].
  destruct (Request.ptruthy (Request.prop p "url") && _); [| reflexivity].
  destruct (Request.is_https pf _); apply lookup_insert_ne; intros <-;
    specialize (Hk eq_refl); discriminate Hk.
Qed.

Lemma set_passphrase_keeps net p k' :
  (k' = "passphrase" -> Request.ptruthy (Request.prop p "passphrase") = true) ->
  Request.set_passphrase net p !! k' = p !! k'.
Proof.
  unfold Request.set_passphrase. intros Hk.
  destruct (Request.ptruthy (Request.prop p "passphrase")) eqn:Ht; cbn [negb andb];
    [reflexivity |].
  destruct (truthy _); [| reflexivity].
  apply lookup_insert_ne. intros <-. specialize (Hk eq_refl). discriminate Hk.
Qed.

Lemma set_strictSSL_keeps net p k' :
  (k' = "strictSSL" -> Request.is_undefined (Request.prop p "strictSSL") = false) ->
  Request.set_strictSSL net p !! k' = p !! k'.
Proof.
  unfold Request.set_strictSSL. intros Hk.
  destruct (Request.is_undefined (Request.prop p "strictSSL")) eqn:Ht; cbn [andb];
    [| reflexivity].
  destruct (negb _); [| reflexivity].
  apply lookup_insert_ne. intros <-. specialize (Hk eq_refl). discriminate Hk.
Qed.


Lemma kept_key_prop p q k :
  q !! k = p !! k -> kept_key p k -> kept_key q k.
Proof.
  intros H [H1 H2]. unfold kept_key. rewrite (prop_of_lookup p q k H). split; assumption.
Qed.

Lemma build_ok_inv pf net p out :
  Request.buildRequestParams pf net p = (None, out) ->
  Request.merge_agentOptions net p = None /\
  exists p1 p2 p4,
    Request.read_into pf "ca" (Request.caFile net) p = (None, p1) /\
    Request.read_into pf "cert" (Request.certFile net) p1 = (None, p2) /\
    Request.read_into pf "key" (Request.keyFile net) (Request.set_proxy pf net p2)
      = (None, p4) /\
    out = Request.set_strictSSL net (Request.set_passphrase net p4).
Proof.
  unfold Request.buildRequestParams. intros H.
  destruct (Request.merge_agentOptions net p); [discriminate H |].
  split; [reflexivity |].
  destruct (Request.read_into pf "ca" _ p) as [[e |] p1] eqn:H1; [discriminate H |].
  destruct (Request.read_into pf "cert" _ p1) as [[e |] p2] eqn:H2; [discriminate H |].
  destruct (Request.read_into pf "key" _ _) as [[e |] p4] eqn:H4; [discriminate H |].
  injection H as <-. exists p1, p2, p4. auto.
Qed.

(** X8: whatever the outcome, [buildRequestParams] changes no property
    the caller set, and no property other than [ca], [cert], [proxy],
    [key], [passphrase] and [strictSSL]; in particular it never writes
    [agentOptions]. *)
Theorem buildRequestParams_keeps pf net params k :
  kept_key params k ->
  snd (Request.buildRequestParams pf net params) !! k = params !! k.
Proof.
  intros Hk. unfold Request.buildRequestParams.
  destruct (Request.merge_agentOptions net params); [reflexivity |].
  assert (Step : forall key file p o q,
            Request.read_into pf key file p = (o, q) ->
            In key ["ca"; "cert"; "key"] ->
            p !! k = params !! k -> q !! k = params !! k).
  { intros key file p o q Hr Hin Hp. rewrite <- Hp.
    apply (read_into_keeps pf key file p o q k Hr). intros ->.
    apply (kept_key_prop params p _ Hp) in Hk. apply Hk.
    cbn [In] in Hin |- *. tauto. }
  destruct (Request.read_into pf "ca" _ params) as [o1 p1] eqn:H1.
  pose proof (Step _ _ _ _ _ H1 ltac:(cbn; tauto) eq_refl) as K1.
  destruct o1; [exact K1 |].
  destruct (Request.read_into pf "cert" _ p1) as [o2 p2] eqn:H2.
  pose proof (Step _ _ _ _ _ H2 ltac:(cbn; tauto) K1) as K2.
  destruct o2; [exact K2 |].
  assert (K3 : Request.set_proxy pf net p2 !! k = params !! k).
  { rewrite <- K2. apply set_proxy_keeps. intros ->.
    apply (kept_key_prop params p2 _ K2) in Hk. apply Hk. cbn; tauto. }
  destruct (Request.read_into pf "key" _ _) as [o4 p4] eqn:H4.
  pose proof (Step _ _ _ _ _ H4 ltac:(cbn; tauto) K3) as K4.
  destruct o4; [exact K4 |]. cbn [snd].
  assert (K5 : Request.set_passphrase net p4 !! k = params !! k).
  { rewrite <- K4. apply set_passphrase_keeps. intros ->.
    apply (kept_key_prop params p4 _ K4) in Hk. apply Hk. cbn; tauto. }
  rewrite <- K5. apply set_strictSSL_keeps. intros ->.
  apply (kept_key_prop params _ _ K5) in Hk. apply Hk. reflexivity.
Qed.

Lemma buildRequestParams_keeps_witness :
  snd (Request.buildRequestParams sample_platform proxied_network
         (<["proxy" := Request.PVal (JString "http://mine:3128")]>
          (<["url" := Request.PVal (JString "https://x/y.json")]> ∅))) !! "proxy"
  = Some (Request.PVal (JString "http://mine:3128")).
Proof.
  rewrite (buildRequestParams_keeps sample_platform proxied_network _ "proxy").
  - reflexivity.
  - split.
    + intros _. reflexivity.
    + discriminate.
Defined.

(** X9: [network.agentOptions] is never merged: when [params] has no
    [agentOptions] and the network configuration has some,
    [buildRequestParams] throws a TypeError and leaves [params] as it
    was. *)
Theorem agentOptions_throws pf net params :
  Request.prop params "agentOptions" = Request.PVal JUndefined \/
  Request.prop params "agentOptions" = Request.PVal JNull ->
  truthy (Request.agentOptions net) = true ->
  Request.buildRequestParams pf net params =
    (Some (TypeError "Cannot convert undefined or null to object"), params).
Proof.
  intros Ha Hn. unfold Request.buildRequestParams, Request.merge_agentOptions.
  destruct Ha as [-> | ->]; cbn [Request.ptruthy truthy negb andb]; rewrite Hn; reflexivity.
Qed.

Lemma agentOptions_throws_witness :
  Request.buildRequestParams sample_platform agent_network
    (<["url" := Request.PVal (JString "https://x/y.json")]> ∅) =
    (Some (TypeError "Cannot convert undefined or null to object"),
     <["url" := Request.PVal (JString "https://x/y.json")]> ∅).
Proof.
  apply agentOptions_throws.
  - left. reflexivity.
  - reflexivity.
Defined.

Lemma read_into_other pf k file p o q k' :
  Request.read_into pf k file p = (o, q) -> k' <> k ->
  Request.prop q k' = Request.prop p k'.
Proof.
  intros H Hne. apply prop_of_lookup.
  apply (read_into_keeps pf k file p o q k' H). intros E. contradiction.
Qed.

Lemma set_proxy_other pf net p k' :
  k' <> "proxy" -> Request.prop (Request.set_proxy pf net p) k' = Request.prop p k'.
Proof. intros H. apply prop_of_lookup, set_proxy_keeps. intros E. contradiction. Qed.

Lemma set_passphrase_other net p k' :
  k' <> "passphrase" -> Request.prop (Request.set_passphrase net p) k' = Request.prop p k'.
Proof. intros H. apply prop_of_lookup, set_passphrase_keeps. intros E. contradiction. Qed.

Lemma set_strictSSL_other net p k' :
  k' <> "strictSSL" -> Request.prop (Request.set_strictSSL net p) k' = Request.prop p k'.
Proof. intros H. apply prop_of_lookup, set_strictSSL_keeps. intros E. contradiction. Qed.

Lemma truthy_js_or a b : truthy (Request.js_or a b) = truthy a || truthy b.
Proof. unfold Request.js_or. destruct (truthy a) eqn:E; [exact E | reflexivity]. Qed.

(** X10: when the caller names a URL and no proxy and the network
    configuration has a proxy, a call that returns has set [proxy]: for a
    URL that starts with [https] the https proxy if there is one, else the
    http proxy; for any other URL the other way round. *)
Theorem proxy_choice pf net params out :
  Request.buildRequestParams pf net params = (None, out) ->
  Request.ptruthy (Request.prop params "proxy") = false ->
  Request.ptruthy (Request.prop params "url") = true ->
  truthy (Request.httpsProxy net) || truthy (Request.httpProxy net) = true ->
  Request.prop out "proxy" =
    Request.PVal
      (if Request.is_https pf (Request.prop params "url")
       then Request.js_or (Request.httpsProxy net) (Request.httpProxy net)
       else Request.js_or (Request.httpProxy net) (Request.httpsProxy net)).
Proof.
  intros H Hproxy Hurl Hnet.
  apply build_ok_inv in H as (_ & p1 & p2 & p4 & H1 & H2 & H4 & ->).
  rewrite set_strictSSL_other, set_passphrase_other by discriminate.
  rewrite (read_into_other _ _ _ _ _ _ "proxy" H4) by discriminate.
  assert (Hp : forall k, k <> "ca" -> k <> "cert" ->
                         Request.prop p2 k = Request.prop params k).
  { intros k Hca Hcert.
    rewrite (read_into_other _ _ _ _ _ _ k H2), (read_into_other _ _ _ _ _ _ k H1);
      auto. }
  unfold Request.set_proxy.
  rewrite !Hp by discriminate. rewrite Hproxy, Hurl, truthy_js_or, Hnet.
  cbn [negb andb].
  destruct (Request.is_https pf (Request.prop params "url")); apply prop_insert.
Qed.

Lemma proxy_choice_witness :
  Request.prop
    (snd (Request.buildRequestParams sample_platform proxied_network
            (<["url" := Request.PVal (JString "https://x/y.json")]> ∅))) "proxy"
  = Request.PVal (JString "https://proxy:8443").
Proof.
  rewrite (proxy_choice sample_platform proxied_network
             (<["url" := Request.PVal (JString "https://x/y.json")]> ∅)
             (snd (Request.buildRequestParams sample_platform proxied_network
                     (<["url" := Request.PVal (JString "https://x/y.json")]> ∅))));
    reflexivity.
Defined.

Lemma read_into_again pf k file p p1 q :
  Request.read_into pf k file p = (None, p1) ->
  Request.prop q k = Request.prop p1 k ->
  Request.read_into pf k file q = (None, q).
Proof.
  unfold Request.read_into. intros H Hq.
  destruct (Request.ptruthy (Request.prop p k)) eqn:Ht; cbn [negb andb] in H.
  - injection H as <-. rewrite Hq, Ht. reflexivity.
  - destruct (truthy file && Request.is_file pf file) eqn:Hc.
    + destruct (Request.readFileSync pf file); [discriminate H |].
      injection H as <-. rewrite prop_insert in Hq. rewrite Hq. reflexivity.
    + injection H as <-. rewrite Hq, Ht. cbn [negb andb]. rewrite Hc. reflexivity.
Qed.

Lemma set_proxy_again pf net p q :
  Request.prop q "proxy" = Request.prop (Request.set_proxy pf net p) "proxy" ->
  Request.prop q "url" = Request.prop p "url" ->
  Request.set_proxy pf net q = q.
Proof.
  intros Hq Hu. unfold Request.set_proxy in Hq |- *. rewrite Hu.
  destruct (Request.ptruthy (Request.prop p "proxy")) eqn:Ht; cbn [negb andb] in Hq.
  - rewrite Hq, Ht. reflexivity.
  - destruct (Request.ptruthy (Request.prop p "url")) eqn:Hurl; cbn [andb] in Hq |- *.
    + destruct (truthy (Request.js_or _ _)) eqn:Hn.
      * assert (Hv : Request.ptruthy (Request.prop q "proxy") = true).
        { rewrite Hq. destruct (Request.is_https pf _); rewrite prop_insert;
            cbn [Request.ptruthy]; rewrite truthy_js_or in Hn |- *; [exact Hn |].
          rewrite orb_comm. exact Hn. }
        rewrite Hv. reflexivity.
      * rewrite andb_false_r. reflexivity.
    + rewrite andb_false_r. reflexivity.
Qed.

Lemma set_passphrase_again net p q :
  Request.prop q "passphrase" = Request.prop (Request.set_passphrase net p) "passphrase" ->
  Request.set_passphrase net q = q.
Proof.
  intros Hq. unfold Request.set_passphrase in Hq |- *.
  destruct (Request.ptruthy (Request.prop p "passphrase")) eqn:Ht; cbn [negb andb] in Hq.
  - rewrite Hq, Ht. reflexivity.
  - destruct (truthy (Request.passphrase net)) eqn:Hn.
    + rewrite prop_insert in Hq. rewrite Hq. cbn [Request.ptruthy]. rewrite Hn. reflexivity.
    + rewrite andb_false_r. reflexivity.
Qed.

Lemma set_strictSSL_again net p q :
  Request.prop q "strictSSL" = Request.prop (Request.set_strictSSL net p) "strictSSL" ->
  Request.set_strictSSL net q = q.
Proof.
  intros Hq. unfold Request.set_strictSSL in Hq |- *.
  destruct (Request.is_undefined (Request.prop p "strictSSL")) eqn:Ht; cbn [andb] in Hq.
  - destruct (negb (Request.is_undefined (Request.PVal (Request.strictSSL net)))) eqn:Hn.
    + rewrite prop_insert in Hq. rewrite Hq.
      apply negb_true_iff in Hn. rewrite Hn. reflexivity.
    + rewrite andb_false_r. reflexivity.
  - rewrite Hq, Ht. reflexivity.
Qed.

(** X11: a call that returns has filled in all it ever will: calling
    [buildRequestParams] on its result returns that result unchanged. *)
Theorem buildRequestParams_idempotent pf net params out :
  Request.buildRequestParams pf net params = (None, out) ->
  Request.buildRequestParams pf net out = (None, out).
Proof.
  intros H.
  apply build_ok_inv in H as (Hm & p1 & p2 & p4 & H1 & H2 & H4 & Hout).
  set (p3 := Request.set_proxy pf net p2) in *.
  set (p5 := Request.set_passphrase net p4) in *.
  assert (F5 : forall k, k <> "strictSSL" -> Request.prop out k = Request.prop p5 k)
    by (intros k Hk; subst out; apply set_strictSSL_other, Hk).
  assert (F4 : forall k, k <> "strictSSL" -> k <> "passphrase" ->
                         Request.prop out k = Request.prop p4 k)
    by (intros k ? ?; rewrite F5 by assumption; apply set_passphrase_other; assumption).
  assert (F3 : forall k, k <> "strictSSL" -> k <> "passphrase" -> k <> "key" ->
                         Request.prop out k = Request.prop p3 k)
    by (intros k ? ? ?; rewrite F4 by assumption;
        apply (read_into_other _ _ _ _ _ _ k H4); assumption).
  assert (F2 : forall k, k <> "strictSSL" -> k <> "passphrase" -> k <> "key" ->
                         k <> "proxy" -> Request.prop out k = Request.prop p2 k)
    by (intros k ? ? ? ?; rewrite F3 by assumption; apply set_proxy_other; assumption).
  assert (F1 : forall k, k <> "strictSSL" -> k <> "passphrase" -> k <> "key" ->
                         k <> "proxy" -> k <> "cert" ->
                         Request.prop out k = Request.prop p1 k)
    by (intros k ? ? ? ? ?; rewrite F2 by assumption;
        apply (read_into_other _ _ _ _ _ _ k H2); assumption).
  assert (F0 : forall k, k <> "strictSSL" -> k <> "passphrase" -> k <> "key" ->
                         k <> "proxy" -> k <> "cert" -> k <> "ca" ->
                         Request.prop out k = Request.prop params k)
    by (intros k ? ? ? ? ? ?; rewrite F1 by assumption;
        apply (read_into_other _ _ _ _ _ _ k H1); assumption).
  unfold Request.buildRequestParams.
  assert (Hm' : Request.merge_agentOptions net out = None).
  { unfold Request.merge_agentOptions in Hm |- *. rewrite F0 by discriminate. exact Hm. }
  rewrite Hm'.
  rewrite (read_into_again pf "ca" _ params p1 out H1) by (apply F1; discriminate).
  rewrite (read_into_again pf "cert" _ p1 p2 out H2) by (apply F2; discriminate).
  rewrite (set_proxy_again pf net p2 out)
    by first [apply F3; discriminate | apply F2; discriminate].
  rewrite (read_into_again pf "key" _ p3 p4 out H4) by (apply F4; discriminate).
  rewrite (set_passphrase_again net p4 out) by (apply F5; discriminate).
  rewrite (set_strictSSL_again net p5 out) by (rewrite Hout; reflexivity).
  reflexivity.
Qed.

Lemma buildRequestParams_idempotent_witness :
  Request.buildRequestParams sample_platform proxied_network
    (snd (Request.buildRequestParams sample_platform proxied_network
            (<["url" := Request.PVal (JString "https://x/y.json")]> ∅)))
  = (None,
     snd (Request.buildRequestParams sample_platform proxied_network
            (<["url" := Request.PVal (JString "https://x/y.json")]> ∅))).
Proof.
  apply (buildRequestParams_idempotent sample_platform proxied_network
           (<["url" := Request.PVal (JString "https://x/y.json")]> ∅)).
  reflexivity.
Defined.

(** ** fetchJSON *)

(** X12: [fetchJSON] resolves only with the parsed body of a response
    whose status is below 400: the promise resolves with [v] exactly when
    the parameters could be built, the request was answered, the status code
    is below 400 and the body parses to [v]. *)
Theorem fetchJSON_resolves pf net url v :
  snd (Request.fetchJSON pf net url) = Request.Resolved v <->
  exists params statusCode body,
    Request.buildRequestParams pf net
      (<["method" := Request.PVal (JString "GET")]> (<["url" := Request.PVal url]> ∅))
      = (None, params) /\
    Request.request pf params = Request.Response statusCode body /\
    statusCode < 400 /\
    Request.JSON_parse pf body = Some v.
Proof.
  unfold Request.fetchJSON.
  destruct (Request.buildRequestParams pf net _) as [[e |] params] eqn:Hb; cbn [snd].
  - split; [discriminate |]. intros (? & ? & ? & H & _). discriminate H.
  - split.
    + intros H. destruct (Request.request pf params) as [err | | code body] eqn:Hr;
        try discriminate H.
      destruct (Z.geb_spec code 400) as [Hc | Hc]; [discriminate H |].
      destruct (Request.JSON_parse pf body) as [v' |] eqn:Hj; [| discriminate H].
      injection H as ->. exists params, code, body. auto.
    + intros (params' & code & body & Hp & Hr & Hc & Hj).
      injection Hp as <-. rewrite Hr.
      destruct (Z.geb_spec code 400); [lia |]. rewrite Hj. reflexivity.
Qed.

Lemma fetchJSON_resolves_witness :
  snd (Request.fetchJSON sample_platform no_network (JString "http://x/y.json")) =
    Request.Resolved (JObject ∅).
Proof.
  apply (proj2 (fetchJSON_resolves sample_platform no_network (JString "http://x/y.json")
                  (JObject ∅))).
  eexists _, 200, "{}".
  split; [reflexivity |]. split; [reflexivity |]. split; [lia | reflexivity].
Defined.

(** X13: with [agentOptions] in the network configuration every
    [fetchJSON] is rejected with the TypeError of [buildRequestParams],
    and no request is made. *)
Theorem fetchJSON_agentOptions pf net url :
  truthy (Request.agentOptions net) = true ->
  Request.fetchJSON pf net url =
    ([Request.Logged url],
     Request.Rejected (TypeError "Cannot convert undefined or null to object")).
Proof.
  intros Hn.
  unfold Request.fetchJSON, Request.buildRequestParams, Request.merge_agentOptions.
  unfold Request.prop at 1.
  rewrite !lookup_insert_ne, lookup_empty by discriminate.
  cbn [default from_option Request.ptruthy truthy negb andb]. rewrite Hn. reflexivity.
Qed.

Lemma fetchJSON_agentOptions_witness :
  Request.fetchJSON sample_platform agent_network (JString "https://x/y.json") =
    ([Request.Logged (JString "https://x/y.json")],
     Request.Rejected (TypeError "Cannot convert undefined or null to object")).
Proof.
  apply fetchJSON_agentOptions. reflexivity.
Defined.

(** ** More on extractZip *)

(** X14: when the reader cannot open the archive, [extractZip] rejects
    with an error whose message is [Invalid zip file: ] followed by the
    message of the reader's error, or by the error as a string when it has
    no message; no entry is read and nothing is created. *)
Theorem invalid_zip_rejected w props dest file err :
  props !! "dest" = Some (JString dest) -> dest <> "" ->
  props !! "file" = Some (JString file) -> file <> "" ->
  existsSync w file = true -> isFile w file = true ->
  yauzl_open w file = inl err ->
  let e := Error ("Invalid zip file: " +:+
                  (if String.eqb (message err) "" then error_toString err
                   else message err)) in
  run w (JObject props) =
    {| trace := [FsExistsSync file; FsIsFile file; Log file dest; YauzlOpen file true;
                 Reject e];
       promise := Some (Rejected e); idx := 0; isOpen := false; endListener := false |}.
Proof.
  intros Hd Hdne Hf Hfne Hex Hfile Hopen e.
  unfold run, extractZip.
  change (negb (truthy (JObject props))
          || negb (String.eqb (typeof (JObject props)) "object")) with false.
  cbv iota. unfold get_prop. rewrite Hd, Hf. cbn [default from_option string_of id].
  unfold id.
  rewrite (nonempty_string_accepted dest Hdne), (nonempty_string_accepted file Hfne).
  run_m. cbn [initial trace promise idx isOpen endListener app].
  rewrite Hex, Hfile. cbn [negb]. unfold on_open. rewrite Hopen.
  run_m. reflexivity.
Qed.

Lemma invalid_zip_rejected_witness :
  promise (run broken_world (sample_params JUndefined)) =
    Some (Rejected (Error "Invalid zip file: end of central directory record signature not found")).
Proof.
  unfold sample_params.
  rewrite (invalid_zip_rejected broken_world _ "/out" "/tmp/a.zip"
             (Error "end of central directory record signature not found"));
    try reflexivity; discriminate.
Defined.

(** X16: when the progress callback throws, the listener does one more
    thing, [reject] with what was thrown: it creates nothing for the
    entry, does not ask for the next one, and does not close the
    archive. *)
Theorem onEntry_throw_rejects w params dest total ent io s e :
  onEntry_result params (fileName ent) (idx s + 1) total = Some e ->
  entry_listener w params dest total ent io s =
    (Halt,
     {| trace := trace s ++ [OnEntry (fileName ent) (idx s + 1) total; Reject e];
        promise := match promise s with None => Some (Rejected e) | Some o => Some o end;
        idx := idx s + 1; isOpen := isOpen s; endListener := endListener s |}).
Proof.
  intros H.
  assert (Hev : onEntry_events params (fileName ent) (idx s + 1) total =
                [OnEntry (fileName ent) (idx s + 1) total]).
  { unfold onEntry_result in H. unfold onEntry_events.
    destruct (get_prop params "onEntry"); try discriminate H. reflexivity. }
  destruct (entry_listener w params dest total ent io s) as [c s'] eqn:Hrun.
  listener_paths_in Hrun; try congruence.
  rewrite Hev, <- app_assoc.
  match goal with H1 : Some _ = Some e |- _ => injection H1 as -> end.
  destruct (promise s); reflexivity.
Qed.

Lemma onEntry_throw_rejects_witness :
  entry_listener (sample_world sample_zip) (sample_params (JFunction throws_on_second))
    "/out" 3 sample_dir (ok_io []) (mkState [] None 1 true true) =
    (Halt,
     {| trace := [OnEntry "dir/" 2 3; Reject (Error "stop")];
        promise := Some (Rejected (Error "stop"));
        idx := 2; isOpen := true; endListener := true |}).
Proof.
  apply (onEntry_throw_rejects (sample_world sample_zip)
           (sample_params (JFunction throws_on_second)) "/out" 3 sample_dir (ok_io [])
           (mkState [] None 1 true true)).
  reflexivity.
Defined.



(** ** How a run ends *)





(** ** Fulfilled runs *)

Lemma listener_advances w params dest total ent io s :
  fst (entry_listener w params dest total ent io s) = Advance <->
  onEntry_result params (fileName ent) (idx s + 1) total = None /\
  entry_ok ent io = true.
Proof.
  destruct (entry_listener w params dest total ent io s) as [c s'] eqn:Hrun.
  unfold entry_ok.
  listener_paths_in Hrun; cbn [fst];
    repeat match goal with H : _ = _ |- _ => rewrite H end;
    split; try (intros [? ?]); try intros ?; try discriminate; auto.
Qed.

Lemma listener_advance_state w params dest total ent io s :
  fst (entry_listener w params dest total ent io s) = Advance ->
  let s' := snd (entry_listener w params dest total ent io s) in
  promise s' = promise s /\ idx s' = idx s + 1 /\ isOpen s' = isOpen s /\
  endListener s' = endListener s /\ delivered (trace s') = delivered (trace s).
Proof.
  destruct (entry_listener w params dest total ent io s) as [c s'] eqn:Hrun.
  listener_paths_in Hrun; cbn [fst snd]; intros H; try discriminate H.
  all: destruct (onEntry_events_cases params (fileName ent) (idx s + 1) total)
         as [-> | ->]; rewrite ?app_nil_r.
  all: cbn [trace promise idx isOpen endListener]; rewrite !delivered_snoc;
    repeat split; reflexivity.
Qed.

Lemma listener_halt_promise w params dest total ent io s :
  fst (entry_listener w params dest total ent io s) = Halt ->
  promise s = None ->
  promise (snd (entry_listener w params dest total ent io s)) <> Some Fulfilled.
Proof.
  destruct (entry_listener w params dest total ent io s) as [c s'] eqn:Hrun.
  listener_paths_in Hrun; cbn [fst snd promise]; intros H Hp; try discriminate H.
  all: rewrite Hp; discriminate.
Qed.

Lemma readEntry_fulfilled w params dest total es : forall s,
  promise s = None -> endListener s = true ->
  let s' := snd (readEntry w params dest total es s) in
  (promise s' = Some Fulfilled <-> all_ok params total es (idx s) = true) /\
  (promise s' = Some Fulfilled ->
   delivered (trace s') = (delivered (trace s) + List.length es)%nat /\
   idx s' = idx s + Z.of_nat (List.length es) /\
   isOpen s' = false /\ endListener s' = false /\
   exists pre, trace s' = pre ++ [ZipClose; ZipEnd; Resolve]).
Proof.
  induction es as [| [ent io] es IH]; intros s Hp Hl; cbv zeta.
  - cbn [readEntry all_ok]. run_m. rewrite Hl. run_m. rewrite Hp.
    split; [split; reflexivity |]. intros _.
    rewrite !delivered_snoc. cbn [List.length].
    repeat split; try lia.
    exists (trace s). rewrite <- !app_assoc. reflexivity.
  - rewrite readEntry_cons.
    set (s0 := mkState (trace s ++ [ZipEntry (fileName ent)]) (promise s) (idx s)
                       (isOpen s) (endListener s)).
    pose proof (listener_advances w params dest total ent io s0) as Hadv.
    pose proof (listener_advance_state w params dest total ent io s0) as Hst.
    pose proof (listener_halt_promise w params dest total ent io s0) as Hhalt.
    destruct (entry_listener w params dest total ent io s0) as [c s'] eqn:Hrun.
    cbn [fst snd] in Hadv, Hst, Hhalt. cbn [all_ok].
    change (idx s0) with (idx s) in Hadv, Hst.
    destruct c.
    + destruct (proj1 Hadv eq_refl) as [-> ->].
      destruct (Hst eq_refl) as (Hp' & Hi' & Ho' & Hl' & Hd').
      cbn [s0 promise idx isOpen endListener trace] in Hp', Hi', Ho', Hl', Hd'.
      rewrite delivered_snoc in Hd'.
      destruct (IH s') as [Hiff Hall]; [congruence | congruence |].
      rewrite Hi' in Hiff. cbn [andb].
      split; [exact Hiff |].
      intros HF. destruct (Hall HF) as (H1 & H2 & H3 & H4 & H5).
      cbn [List.length]. repeat split; try assumption; lia.
    + cbn [snd]. specialize (Hhalt eq_refl Hp).
      split.
      * split; [intros H; contradiction |].
        destruct (onEntry_result params (fileName ent) (idx s + 1) total) eqn:Hr;
          [discriminate |].
        intros Hok. apply andb_prop in Hok as [Hok _].
        discriminate (proj2 Hadv (conj eq_refl Hok)).
      * intros H; contradiction.
Qed.

(** X15: a run whose promise is fulfilled has gone through the whole
    archive: every entry was delivered, the counter equals the number of
    entries, the [end] listener has run and is gone, the archive is closed,
    and the run ends with the reader closing the archive, emitting [end]
    and [resolve] being called. *)
Theorem fulfilled_run_complete w params dest file z :
  opens w params dest file z ->
  promise (run w params) = Some Fulfilled ->
  delivered (trace (run w params)) = List.length (entries z) /\
  idx (run w params) = entryCount z /\
  isOpen (run w params) = false /\ endListener (run w params) = false /\
  exists pre, trace (run w params) = pre ++ [ZipClose; ZipEnd; Resolve].
Proof.
  intros Hopen. rewrite (run_opens _ _ _ _ _ Hopen).
  intros HF.
  destruct (readEntry_fulfilled w params dest (entryCount z) (entries z)
              (opened file dest) eq_refl eq_refl) as [_ Hall].
  destruct (Hall HF) as (H1 & H2 & H3 & H4 & H5).
  cbn [opened trace idx] in H1, H2.
  repeat split; try assumption.
Qed.

Lemma fulfilled_run_complete_witness :
  delivered (trace (run (sample_world sample_zip) (sample_params JUndefined))) = 3%nat /\
  idx (run (sample_world sample_zip) (sample_params JUndefined)) = 3 /\
  isOpen (run (sample_world sample_zip) (sample_params JUndefined)) = false /\
  endListener (run (sample_world sample_zip) (sample_params JUndefined)) = false /\
  exists pre, trace (run (sample_world sample_zip) (sample_params JUndefined)) =
              pre ++ [ZipClose; ZipEnd; Resolve].
Proof.
  apply (fulfilled_run_complete (sample_world sample_zip) (sample_params JUndefined)
           "/out" "/tmp/a.zip" sample_zip).
  - apply sample_opens.
  - reflexivity.
Defined.



(** ** The mode of a file *)

(** X20: the mode handed to [createWriteStream] is a positive 16-bit
    number: it is never 0, whatever the external attributes of the entry
    are. *)
Theorem file_mode_range (ent : entry) : 0 < file_mode ent < 2 ^ 16.
Proof.
  unfold file_mode. pose proof (entry_mode_range ent) as H.
  destruct (entry_mode ent =? 0) eqn:E; [lia |].
  apply Z.eqb_neq in E. lia.
Qed.

(** ** The errors of mkdirp *)

Lemma forget_onEntry_events params n i t :
  map forget_mkdirp_err (onEntry_events params n i t) = onEntry_events params n i t.
Proof. destruct (onEntry_events_cases params n i t) as [-> | ->]; reflexivity. Qed.

Lemma listener_forget w w' params dest total ent io s :
  utf8 w' = utf8 w ->
  entry_listener w' params dest total ent (clear_mkdirp io) (forget_state s) =
    (fst (entry_listener w params dest total ent io s),
     forget_state (snd (entry_listener w params dest total ent io s))).
Proof.
  intros Hu. destruct io as [me oe ch re se pe], s as [tr p i o l].
  unfold entry_listener, clear_mkdirp, forget_state. rewrite Hu.
  unfold bind, get_idx, set_idx.
  cbn [idx trace promise isOpen endListener].
  rewrite !call_onEntry_run.
  cbn [idx trace promise isOpen endListener].
  destruct (onEntry_result params (fileName ent) (i + 1) total);
    [ | destruct (classify ent) ]; run_m;
    cbn [mkdirp_err openReadStream_err chunks read_err symlinkSync_err pipe_end].
  all: try destruct oe; try destruct re; try destruct se; try destruct pe; run_m.
  all: unfold forget_state; cbn [fst snd trace promise idx isOpen endListener].
  all: rewrite ?map_app, ?forget_onEntry_events; reflexivity.
Qed.

Lemma readEntry_forget w w' params dest total es : utf8 w' = utf8 w -> forall s,
  snd (readEntry w' params dest total (map (fun e => (fst e, clear_mkdirp (snd e))) es)
         (forget_state s)) =
    forget_state (snd (readEntry w params dest total es s)).
Proof.
  intros Hu. induction es as [| [ent io] es IH]; intros s.
  - cbn [map readEntry]. run_m. unfold forget_state.
    cbn [trace promise idx isOpen endListener].
    destruct (endListener s) eqn:E; run_m; rewrite ?E;
      cbn [trace promise idx isOpen endListener]; rewrite ?map_app; reflexivity.
  - cbn [map fst snd]. rewrite !readEntry_cons.
    change (mkState (trace (forget_state s) ++ [ZipEntry (fileName ent)])
                    (promise (forget_state s)) (idx (forget_state s))
                    (isOpen (forget_state s)) (endListener (forget_state s)))
      with (mkState (map forget_mkdirp_err (trace s) ++
                       map forget_mkdirp_err [ZipEntry (fileName ent)])
                    (promise s) (idx s) (isOpen s) (endListener s)).
    rewrite <- map_app.
    change (mkState (map forget_mkdirp_err (trace s ++ [ZipEntry (fileName ent)]))
                    (promise s) (idx s) (isOpen s) (endListener s))
      with (forget_state (mkState (trace s ++ [ZipEntry (fileName ent)])
                                  (promise s) (idx s) (isOpen s) (endListener s))).
    rewrite (listener_forget w w' _ _ _ _ _ _ Hu).
    destruct (entry_listener _ _ _ _ _ _ _) as [[|] s']; cbn [fst snd].
    + apply IH.
    + reflexivity.
Qed.

(** X19: the outcome of [extractZip] does not depend on whether [mkdirp]
    fails.  Run in a world where [mkdirp] never fails, a call does the
    same things in the same order, settles its promise the same way and
    leaves the archive in the same state; the runs differ only in the
    error that the callbacks of [mkdirp] receive and drop. *)
Theorem mkdirp_outcome_ignored (w : world) (params : jsval) :
  run (clear_world w) params = forget_state (run w params).
Proof.
  unfold run, extractZip.
  destruct (negb (truthy params) || negb (String.eqb (typeof params) "object"));
    [reflexivity |].
  cbv zeta.
  destruct (negb (truthy (get_prop params "dest"))
            || negb (String.eqb (typeof (get_prop params "dest")) "string"));
    [reflexivity |].
  destruct (negb (truthy (get_prop params "file"))
            || negb (String.eqb (typeof (get_prop params "file")) "string"));
    [reflexivity |].
  run_m. cbn [initial trace promise idx isOpen endListener app clear_world existsSync isFile].
  destruct (existsSync w (string_of (get_prop params "file"))); [| reflexivity].
  cbn [negb].
  destruct (isFile w (string_of (get_prop params "file"))); [| reflexivity].
  cbn [negb]. unfold on_open. cbn [clear_world yauzl_open].
  destruct (yauzl_open w (string_of (get_prop params "file"))) as [err | z].
  - run_m. reflexivity.
  - run_m. unfold clear_mkdirps at 2. cbn [entries].
    replace (entryCount (clear_mkdirps z)) with (entryCount z)
      by (unfold entryCount, clear_mkdirps; cbn [entries]; rewrite length_map; reflexivity).
    exact (readEntry_forget w (clear_world w) params (string_of (get_prop params "dest")) (entryCount z)
             (entries z) eq_refl
             (mkState [FsExistsSync (string_of (get_prop params "file"));
                       FsIsFile (string_of (get_prop params "file"));
                       Log (string_of (get_prop params "file"))
                           (string_of (get_prop params "dest"));
                       YauzlOpen (string_of (get_prop params "file")) true;
                       ZipReadEntry] None 0 true true)).
Qed.
